(** * upscale-photo-bot: the user registry, the chat handlers and the
      upscale gateway of [bot.py], as a shallow embedding.

    The relational store, the chat client and the upscale provider are
    external to [bot.py]; they appear here as explicit state (the [users]
    table), as an event trace (the calls made to them) and as oracles (the
    answers they give).  The store answers every statement, the chat client
    accepts every call but [bot.send_message], whose outcome is an oracle,
    and one handler runs at a time.  Log lines are left out. *)

From Stdlib Require Import ZArith NArith Ascii String.
From stdpp Require Import gmap list sorting.

Local Open Scope Z_scope.

(** ** Python strings *)

(** A Python [str] is a sequence of Unicode code points. *)
Definition pystr := list N.

(** An ASCII literal of the source as a [pystr]. *)
Definition codes (s : string) : pystr :=
  List.map N_of_ascii (list_ascii_of_string s).

#[global] Arguments codes : simpl never.

Definition pystr_eqb (a b : pystr) : bool := bool_decide (a = b).

(** [s.startswith(p)] *)
Fixpoint startswith (p s : pystr) : bool :=
  match p, s with
  | [], _ => true
  | _ :: _, [] => false
  | a :: p', b :: s' => (a =? b)%N && startswith p' s'
  end.

(** [p in s] on strings: [p] occurs in [s] as a contiguous run. *)
Fixpoint contains (p s : pystr) : bool :=
  startswith p s ||
  match s with
  | [] => false
  | _ :: s' => contains p s'
  end.

(** [s.replace(p, "")] for a non-empty [p]: every occurrence of [p] is
    removed, scanning from the left, occurrences not overlapping.  [skip]
    counts the characters of the occurrence being removed that are still
    ahead. *)
Fixpoint remove_from (p : pystr) (skip : nat) (s : pystr) : pystr :=
  match s with
  | [] => []
  | c :: s' =>
      match skip with
      | S k => remove_from p k s'
      | O => if startswith p s then remove_from p (length p - 1) s'
             else c :: remove_from p 0 s'
      end
  end.

Definition replace_empty (p s : pystr) : pystr := remove_from p 0 s.

(** The code points [str.strip()] removes (CPython's whitespace table). *)
Definition is_space (c : N) : bool :=
  ((9 <=? c) && (c <=? 13) || (28 <=? c) && (c <=? 32) ||
   (c =? 133) || (c =? 160) || (c =? 5760) ||
   (8192 <=? c) && (c <=? 8202) || (c =? 8232) || (c =? 8233) ||
   (c =? 8239) || (c =? 8287) || (c =? 12288))%N.

Fixpoint lstrip (s : pystr) : pystr :=
  match s with
  | [] => []
  | c :: s' => if is_space c then lstrip s' else s
  end.

(** [s.strip()] *)
Definition strip (s : pystr) : pystr := rev (lstrip (rev (lstrip s))).

(** [s.split(sep)] for a one-character [sep]: the pieces between the
    separators, of which there is always at least one. *)
Fixpoint split_on (sep : N) (s : pystr) : list pystr :=
  match s with
  | [] => [[]]
  | c :: s' =>
      if (c =? sep)%N then [] :: split_on sep s'
      else match split_on sep s' with
           | [] => [[c]]
           | piece :: rest => (c :: piece) :: rest
           end
  end.

(** ** JSON values, as [json.loads] and [resp.json()] build them *)

#[warnings="-register-all"] Inductive Json :=
| JNull
| JBool (b : bool)
| JInt (n : Z)
| JFloat
| JStr (s : pystr)
| JArr (l : list Json)
| JObj (items : list (pystr * Json)).

(** [d.get(k)] on the items of a dict. *)
Fixpoint dict_get (k : pystr) (items : list (pystr * Json)) : option Json :=
  match items with
  | [] => None
  | (k', v) :: rest => if pystr_eqb k k' then Some v else dict_get k rest
  end.

(** ** The [users] table (init_db, lines 51-67)

    [id BIGINT PRIMARY KEY, username VARCHAR, first_name VARCHAR,
     joined TIMESTAMP DEFAULT CURRENT_TIMESTAMP, active BOOLEAN DEFAULT TRUE].
    The primary key makes the table a finite map from ids to the other
    columns.  Timestamps are microseconds on one clock, shared by
    [CURRENT_TIMESTAMP] and [datetime.now()]. *)

Record Account := mkAccount {
  username : option pystr;
  first_name : option pystr;
  joined : Z;
  active : bool
}.

Abbreviation Registry := (gmap Z Account).

(** A row as a query returns it: the id and the other columns. *)
Abbreviation Row := (Z * Account)%type.

Definition row_id (r : Row) : Z := r.1.
Definition row_joined (r : Row) : Z := joined r.2.
Definition row_active (r : Row) : bool := active r.2.

(** The storage engine.  A [SELECT] without [ORDER BY] returns the rows of
    the table in an order of the engine's choosing; all the engine promises
    is that every row comes exactly once. *)
Record Engine := mkEngine {
  scan : Registry -> list Row;
  scan_perm : forall m, scan m ≡ₚ map_to_list m
}.

(** The rows in the order of the finite map's own enumeration. *)
Definition map_engine : Engine :=
  {| scan := map_to_list; scan_perm := fun m => reflexivity _ |}.

(** [ORDER BY id]: the order of a scan of the primary-key index. *)
Definition id_le (r1 r2 : Row) : Prop := row_id r1 <= row_id r2.

#[global] Instance id_le_dec : RelDecision id_le.
Proof. intros r1 r2. unfold id_le. apply _. Defined.

Definition pkey_engine : Engine :=
  {| scan := fun m => merge_sort id_le (map_to_list m);
     scan_perm := fun m => merge_sort_Permutation id_le (map_to_list m) |}.

(** [ORDER BY joined DESC] *)
Definition joined_desc (r1 r2 : Row) : Prop := row_joined r2 <= row_joined r1.

#[global] Instance joined_desc_dec : RelDecision joined_desc.
Proof. intros r1 r2. unfold joined_desc. apply _. Defined.

#[global] Instance joined_desc_total : Total joined_desc.
Proof. intros r1 r2. unfold joined_desc. lia. Qed.

#[global] Instance joined_desc_trans : Transitive joined_desc.
Proof. intros r1 r2 r3. unfold joined_desc. lia. Qed.

(** The dict [get_stats] returns. *)
Record Stats := mkStats { total : nat; new_24h : nat; st_active : nat }.

(** [timedelta(hours=h)] in microseconds. *)
Definition hours (h : Z) : Z := h * 3600 * 1000000.

(** ** Registry operations (lines 70-137) *)

Section registry.
Context (E : Engine).

(** add_user (lines 70-84):
    [INSERT ... VALUES (id, username, first_name)
     ON CONFLICT (id) DO UPDATE SET username, first_name, active = TRUE].
    A new row takes [joined] from the clock and [active] from its default;
    a conflicting row keeps its [joined]. *)
Definition add_user (now : Z) (user_id : Z) (uname fname : option pystr)
    (m : Registry) : Registry :=
  match m !! user_id with
  | None => <[user_id := mkAccount uname fname now true]> m
  | Some a => <[user_id := mkAccount uname fname (joined a) true]> m
  end.

(** get_all_user_ids (lines 87-95):
    [SELECT id FROM users WHERE active = TRUE] *)
Definition get_all_user_ids (m : Registry) : list Z :=
  row_id <$> filter (λ r, row_active r = true) (scan E m).

(** mark_inactive (lines 98-105):
    [UPDATE users SET active = FALSE WHERE id = %s] *)
Definition set_inactive (a : Account) : Account :=
  mkAccount (username a) (first_name a) (joined a) false.

Definition mark_inactive (user_id : Z) (m : Registry) : Registry :=
  alter set_inactive user_id m.

(** get_stats (lines 108-126) *)
Definition get_stats (now : Z) (m : Registry) : Stats :=
  let total := length (scan E m) in
  let active := length (filter (λ r, row_active r = true) (scan E m)) in
  let day_ago := now - hours 24 in
  let new_24h := length (filter (λ r, day_ago < row_joined r) (scan E m)) in
  {| total := total; new_24h := new_24h; st_active := active |}.

(** export_users (lines 129-137):
    [SELECT id, username, first_name, joined, active FROM users
     ORDER BY joined DESC] *)
Definition export_users (m : Registry) : list Row :=
  merge_sort joined_desc (scan E m).
End registry.


(** ** Effects of the chat handlers

    A handler runs against the table and makes calls to the store and to the
    chat client.  The trace records the calls in the order they are made.
    Texts are recorded by template and interpolated values. *)

Inductive Text :=
| StartMenu                                  (* lines 243-250 *)
| HelpText                                   (* lines 260-268 *)
| StatsText (s : Stats)                      (* lines 281-284 *)
| BroadcastUsage                             (* lines 327-329 *)
| BroadcastProgress (done total : nat)       (* lines 338, 350 *)
| BroadcastDone (sent failed : nat)          (* lines 355-357 *)
| PhotoPrompt                                (* lines 371-372 *)
| WebappError.                               (* line 409 *)

Inductive Document :=
| UsersCsv (stamp : Z) (rows : list Row)     (* lines 298-311 *)
| UpscaledPng (stamp : Z) (bytes : list N).  (* lines 396-399 *)

Inductive Caption :=
| ExportCaption (count : nat)                (* line 312 *)
| UpscaledCaption.                           (* line 403 *)

Inductive DbCall :=
| DbUpsert (user_id : Z)
| DbSelectActive
| DbMarkInactive (user_id : Z)
| DbStats
| DbExport.

Inductive Event :=
| Db (c : DbCall)
| Answer (t : Text)                                  (* message.answer *)
| AnswerDocument (d : Document) (c : Caption)      (* answer_document *)
| SendMessage (user_id : Z) (text : pystr)           (* bot.send_message *)
| EditText (t : Text)                                (* status_msg.edit_text *)
| Sleep.                                             (* asyncio.sleep(0.05) *)

Record World := mkWorld { users : Registry; trace : list Event }.

(** Handlers are state transformers on the world. *)
Definition M (A : Type) : Type := World -> A * World.

Definition ret {A} (a : A) : M A := fun w => (a, w).

Definition bind {A B} (c : M A) (k : A -> M B) : M B :=
  fun w => let '(a, w') := c w in k a w'.

Declare Scope handler_scope.
Delimit Scope handler_scope with handler.
Notation "x <- c ;; k" := (bind c (fun x => k))
  (at level 100, c at next level, right associativity) : handler_scope.
Notation "c ;; k" := (bind c (fun _ => k))
  (at level 100, right associativity) : handler_scope.

Definition emit (e : Event) : M unit :=
  fun w => (tt, mkWorld (users w) (trace w ++ [e])).

Definition query {A} (c : DbCall) (f : Registry -> A) : M A :=
  fun w => (f (users w), mkWorld (users w) (trace w ++ [Db c])).

Definition update (c : DbCall) (f : Registry -> Registry) : M unit :=
  fun w => (tt, mkWorld (f (users w)) (trace w ++ [Db c])).

Definition when (b : bool) (c : M unit) : M unit := if b then c else ret tt.

(** How a handler ends: it returns, or an exception leaves it (the
    dispatcher logs it; nothing more is sent). *)
Inductive Ended := Returns | Raises.

(** The world a handler leaves behind. *)
Definition exec {A} (c : M A) (w : World) : World := (c w).2.

(** The messages [bot.send_message] was asked to deliver. *)
Definition deliveries (t : list Event) : list (Z * pystr) :=
  omap (λ e, match e with SendMessage u x => Some (u, x) | _ => None end) t.

(** ** Chat handlers (lines 227-409) *)

Section handlers.
Context (E : Engine).
(** [ADMIN_ID = int(os.getenv("ADMIN_ID", "0"))] (line 35) *)
Context (ADMIN_ID : Z).
(** [str.lower] of the failure text. *)
Context (lower : pystr -> pystr).
(** The chat platform's answer to [bot.send_message(user_id, text)]:
    [None] when the message is delivered, [Some reason] when the call
    raises an exception [e] with [str(e) = reason]. *)
Context (deliver : Z -> pystr -> option pystr).
(** [base64.b64decode]: [None] when it raises. *)
Context (b64decode : pystr -> option (list N)).

Local Open Scope handler_scope.

(** cmd_start (lines 227-253) *)
Definition cmd_start (now from_id : Z) (uname fname : option pystr) : M unit :=
  update (DbUpsert from_id) (add_user now from_id uname fname) ;;
  emit (Answer StartMenu).

(** cmd_help (lines 256-270) *)
Definition cmd_help : M unit := emit (Answer HelpText).

(** [if ADMIN_ID and message.from_user.id != ADMIN_ID: return] *)
Definition rejected (from_id : Z) : bool :=
  negb (ADMIN_ID =? 0) && negb (from_id =? ADMIN_ID).

(** cmd_stats (lines 273-286) *)
Definition cmd_stats (now from_id : Z) : M unit :=
  if rejected from_id then ret tt
  else
    stats <- query DbStats (get_stats E now) ;;
    emit (Answer (StatsText stats)).

(** cmd_export (lines 289-314).  The store answers every query, so the
    handler of line 313 is not reached. *)
Definition cmd_export (now from_id : Z) : M unit :=
  if rejected from_id then ret tt
  else
    rows <- query DbExport (export_users E) ;;
    emit (AnswerDocument (UsersCsv now rows) (ExportCaption (length rows))).

(** [message.text.replace("/broadcast", "").strip()] (line 323) *)
Definition broadcast_text (message_text : pystr) : pystr :=
  strip (replace_empty (codes "/broadcast") message_text).

(** The test of line 346 on [str(e)]. *)
Definition unreachable (reason : pystr) : bool :=
  contains (codes "blocked") (lower reason) ||
  contains (codes "deactivated") (lower reason).

(** Lines 341-347: one delivery attempt and its bookkeeping. *)
Definition attempt (text : pystr) (user_id : Z) (sent failed : nat)
    : M (nat * nat) :=
  emit (SendMessage user_id text) ;;
  match deliver user_id text with
  | None => ret (S sent, failed)
  | Some reason =>
      when (unreachable reason)
           (update (DbMarkInactive user_id) (mark_inactive user_id)) ;;
      ret (sent, S failed)
  end.

(** The loop of lines 340-352, at index [i] with [ids] still ahead. *)
Fixpoint broadcast_loop (text : pystr) (n : nat) (i : nat) (ids : list Z)
    (sent failed : nat) : M (nat * nat) :=
  match ids with
  | [] => ret (sent, failed)
  | user_id :: rest =>
      counts <- attempt text user_id sent failed ;;
      when ((i + 1) mod 20 =? 0)%nat
           (emit (EditText (BroadcastProgress (i + 1) n))) ;;
      emit Sleep ;;
      broadcast_loop text n (S i) rest counts.1 counts.2
  end.

(** Lines 334-359: the broadcast job. *)
Definition broadcast_job (text : pystr) : M (nat * nat) :=
  user_ids <- query DbSelectActive (get_all_user_ids E) ;;
  emit (Answer (BroadcastProgress 0 (length user_ids))) ;;
  counts <- broadcast_loop text (length user_ids) 0 user_ids 0 0 ;;
  emit (EditText (BroadcastDone counts.1 counts.2)) ;;
  ret counts.

(** cmd_broadcast (lines 317-359), from [message.text]: [None] for a message
    without text (the command came in the caption of a photo), where
    [message.text.replace] raises [AttributeError] on line 323. *)
Definition cmd_broadcast (from_id : Z) (message_text : option pystr)
    : M Ended :=
  if rejected from_id then ret Returns
  else
    match message_text with
    | None => ret Raises
    | Some message_text =>
        let text := broadcast_text message_text in
        match text with
        | [] => emit (Answer BroadcastUsage) ;; ret Returns
        | _ :: _ => broadcast_job text ;; ret Returns
        end
    end.

(** handle_photo (lines 362-374) *)
Definition handle_photo : M unit := emit (Answer PhotoPrompt).

(** Lines 383-393 of handle_webapp_data, from the result of [json.loads]
    on ([None] when it raises): [None] when an exception is raised,
    [Some None] when the action is not [send_result], [Some (Some bytes)]
    with the decoded image otherwise. *)
Definition webapp_image (parsed : option Json) : option (option (list N)) :=
  data ← parsed;
  items ← match data with JObj items => Some items | _ => None end;
  match dict_get (codes "action") items with
  | Some (JStr a) =>
      if pystr_eqb a (codes "send_result") then
        image_base64 ←
          match dict_get (codes "image") items with
          | None => Some []
          | Some (JStr s) => Some s
          | Some _ => None
          end;
        stripped ←
          (if startswith (codes "data:image") image_base64
           then split_on 44 image_base64 !! 1%nat
           else Some image_base64);
        image_bytes ← b64decode stripped;
        Some (Some image_bytes)
      else Some None
  | _ => Some None
  end.

(** handle_webapp_data (lines 377-409) *)
Definition handle_webapp_data (now : Z) (parsed : option Json) : M unit :=
  match webapp_image parsed with
  | Some (Some image_bytes) =>
      emit (AnswerDocument (UpscaledPng now image_bytes) UpscaledCaption)
  | Some None => ret tt
  | None => emit (Answer WebappError)
  end.
End handlers.

(** ** The upscale gateway (lines 142-193) *)

(** One part of a multipart body: the name of its form field, if it has
    one, and what [part.read()] returns. *)
Record Part := mkPart { part_name : option pystr; part_data : list N }.

(** [web.json_response(body, status=...)] *)
Record Response := mkResponse { status : Z; body : Json }.

(** The calls made to the upscale provider. *)
Inductive ProviderCall :=
| PostImage (image_data : list N)      (* session.post(.../api/waifu2x) *)
| GetOutput (url : Json).              (* session.get(result['output_url']) *)

Section gateway.
(** The provider's answer to the POST, decoded by [resp.json()]: the items
    of a JSON object, or [inl msg] when the call or the decoding raises an
    exception [e] with [str(e) = msg]. *)
Context (post : list N -> pystr + list (pystr * Json)).
(** The bytes behind the output reference, or [inl msg] when it raises. *)
Context (fetch : Json -> pystr + list N).
(** [base64.b64encode(...).decode('utf-8')] *)
Context (b64encode : list N -> pystr).

(** Lines 149-154: the data of the last part named [image]. *)
Definition read_image (parts : list Part) : option (list N) :=
  foldl (λ image_data part,
           match part_name part with
           | Some name =>
               if pystr_eqb name (codes "image") then Some (part_data part)
               else image_data
           | None => image_data
           end) None parts.

Definition error_response (msg : pystr) (st : Z) : Response :=
  mkResponse st (JObj [(codes "error", JStr msg)]).

(** handle_upscale, from the parts [request.multipart()] yields
    ([inl msg] when reading the request raises). *)
Definition handle_upscale (request : pystr + list Part)
    : Response * list ProviderCall :=
  match request with
  | inl msg => (error_response msg 500, [])
  | inr parts =>
      match read_image parts with
      | None | Some [] => (error_response (codes "No image provided") 400, [])
      | Some image_data =>
          match post image_data with
          | inl msg => (error_response msg 500, [PostImage image_data])
          | inr result =>
              match dict_get (codes "output_url") result with
              | Some url =>
                  match fetch url with
                  | inl msg =>
                      (error_response msg 500,
                       [PostImage image_data; GetOutput url])
                  | inr img_bytes =>
                      (mkResponse 200
                         (JObj [(codes "success", JBool true);
                                (codes "output_url", url);
                                (codes "image_base64",
                                 JStr (codes "data:image/png;base64," ++
                                       b64encode img_bytes))]),
                       [PostImage image_data; GetOutput url])
                  end
              | None =>
                  (mkResponse 500
                     (JObj [(codes "success", JBool false);
                            (codes "error",
                             default (JStr (codes "Unknown error"))
                                     (dict_get (codes "err") result))]),
                   [PostImage image_data])
              end
          end
      end
  end.
End gateway.

(** ** Instances of the oracles, for running the model *)

(** Lower-casing of the ASCII letters. *)
Definition ascii_lower (s : pystr) : pystr :=
  (λ c, if (65 <=? c) && (c <=? 90) then c + 32 else c)%N <$> s.

(** A chat platform that refuses the ids of [blocked] and delivers to all
    others. *)
Definition blocks (blocked : list Z) (user_id : Z) (text : pystr)
    : option pystr :=
  if bool_decide (user_id ∈ blocked)
  then Some (codes "Forbidden: bot was blocked by the user")
  else None.

(** A table of [n] active accounts with the ids [1..n], the account [k]
    joined at time [k]. *)
Fixpoint synthetic (n : nat) : Registry :=
  match n with
  | O => ∅
  | S k => add_user (Z.of_nat n) (Z.of_nat n) None None (synthetic k)
  end.

(** A world with [n] synthetic accounts and nothing sent yet. *)
Definition world0 (n : nat) : World := mkWorld (synthetic n) [].

(** A stand-in for the decoder: it rejects a string whose length is not a
    multiple of 4 (incorrect padding) and gives one zero byte for every
    four characters of any other. *)
Definition stub_b64decode (s : pystr) : option (list N) :=
  if (length s mod 4 =? 0)%nat then Some (replicate (length s / 4) 0%N)
  else None.

(** A provider that would answer every image with the same reference. *)
Definition stub_post (image_data : list N) : pystr + list (pystr * Json) :=
  inr [(codes "output_url", JStr (codes "https://provider/out.png"))].

Definition stub_fetch (url : Json) : pystr + list N := inr [137; 80; 78; 71]%N.

(** Two accounts: 7 joins at time 1, then 3 joins at time 2. *)
Definition two_joined : Registry :=
  add_user 2 3 None None (add_user 1 7 None None ∅).

(** ** Vocabulary of the properties *)

(** The ids are in the order of the join times of their rows. *)
Definition in_join_order (m : Registry) (ids : list Z) : Prop :=
  Sorted Z.le (omap (λ u, joined <$> m !! u) ids).

(** The number of rows of the table that satisfy [P]. *)
Definition count_rows (P : Row -> Prop) `{!∀ r, Decision (P r)}
    (m : Registry) : nat :=
  length (filter P (map_to_list m)).

Section outcomes.
Context (lower : pystr -> pystr) (deliver : Z -> pystr -> option pystr).
Context (text : pystr).

(** The recipients the message reaches. *)
Definition delivered (user_id : Z) : bool :=
  match deliver user_id text with Some _ => false | None => true end.

(** The recipients the loop deactivates. *)
Definition dropped (user_id : Z) : bool :=
  match deliver user_id text with
  | Some reason => unreachable lower reason
  | None => false
  end.
End outcomes.

(** ** The writes on the table, in sequence

    [add_user] and [mark_inactive] are the only statements of [bot.py] that
    write to the table. *)

Inductive Write :=
| AddUser (now user_id : Z) (uname fname : option pystr)
| MarkInactive (user_id : Z).

Definition apply_write (m : Registry) (op : Write) : Registry :=
  match op with
  | AddUser now user_id uname fname => add_user now user_id uname fname m
  | MarkInactive user_id => mark_inactive user_id m
  end.

Definition apply_writes (ops : list Write) (m : Registry) : Registry :=
  foldl apply_write m ops.

(** ** More vocabulary *)

(** [sep.join(pieces)] *)
Fixpoint join_with (sep : N) (pieces : list pystr) : pystr :=
  match pieces with
  | [] => []
  | [piece] => piece
  | piece :: rest => piece ++ sep :: join_with sep rest
  end.

(** The events of the loop of lines 340-352 at index [i] with [ids] ahead,
    as a list. *)
Fixpoint loop_events (lower : pystr -> pystr)
    (deliver : Z -> pystr -> option pystr) (text : pystr)
    (n i : nat) (ids : list Z) : list Event :=
  match ids with
  | [] => []
  | u :: rest =>
      [SendMessage u text] ++
      (if dropped lower deliver text u then [Db (DbMarkInactive u)] else []) ++
      (if ((i + 1) mod 20 =? 0)%nat
       then [EditText (BroadcastProgress (i + 1) n)] else []) ++
      [Sleep] ++
      loop_events lower deliver text n (S i) rest
  end.

Definition is_sleep (e : Event) : bool :=
  match e with Sleep => true | _ => false end.

Definition is_progress (e : Event) : bool :=
  match e with EditText (BroadcastProgress _ _) => true | _ => false end.

Definition is_write (e : Event) : bool :=
  match e with Db (DbMarkInactive _) | Db (DbUpsert _) => true | _ => false end.

(** How many events of the trace satisfy [p]. *)
Definition count_events (p : Event -> bool) (t : list Event) : nat :=
  length (filter (λ e, p e = true) t).

(** ** The HTTP surface around the gateway (lines 196-222, 420-423) *)

(** A response as it leaves the server: status, headers and, when there is
    one, the JSON body. *)
Record Served := mkServed {
  sv_status : Z;
  sv_headers : list (pystr * pystr);
  sv_body : option Json
}.

(** Header names compare without regard to the case of ASCII letters. *)
Definition same_header (a b : pystr) : bool :=
  pystr_eqb (ascii_lower a) (ascii_lower b).

(** [headers[name]] *)
Fixpoint get_header (name : pystr) (hs : list (pystr * pystr))
    : option pystr :=
  match hs with
  | [] => None
  | (k, v) :: rest =>
      if same_header name k then Some v else get_header name rest
  end.

(** [headers[name] = value]: the entries of that name are replaced. *)
Definition set_header (name value : pystr) (hs : list (pystr * pystr))
    : list (pystr * pystr) :=
  filter (λ kv, same_header name kv.1 = false) hs ++ [(name, value)].

Definition allow_origin : pystr := codes "Access-Control-Allow-Origin".
Definition allow_methods : pystr := codes "Access-Control-Allow-Methods".
Definition allow_headers : pystr := codes "Access-Control-Allow-Headers".

(** handle_health (lines 196-198) *)
Definition handle_health : Response :=
  mkResponse 200 (JObj [(codes "status", JStr (codes "ok"))]).

(** handle_cors_preflight (lines 201-209): [web.Response(headers=...)] *)
Definition handle_cors_preflight : Served :=
  mkServed 200
    [(allow_origin, codes "*");
     (allow_methods, codes "POST, GET, OPTIONS");
     (allow_headers, codes "Content-Type")]
    None.

Section http.
(** The headers [web.json_response] puts on a response. *)
Context (json_headers : list (pystr * pystr)).

Definition json_response (r : Response) : Served :=
  mkServed (status r) json_headers (Some (body r)).

(** cors_middleware (lines 212-222), with the handler's response and its
    calls to the provider; the handler is run only where line 218 runs it. *)
Definition cors_middleware (method : pystr)
    (handler : unit -> Served * list ProviderCall)
    : Served * list ProviderCall :=
  if pystr_eqb method (codes "OPTIONS") then (handle_cors_preflight, [])
  else
    let '(response, calls) := handler tt in
    (mkServed (sv_status response)
       (set_header allow_headers (codes "Content-Type")
          (set_header allow_methods (codes "POST, GET, OPTIONS")
             (set_header allow_origin (codes "*") (sv_headers response))))
       (sv_body response),
     calls).

(** The three routes of lines 421-423. *)
Inductive Route :=
| PostUpscale (request : pystr + list Part)
| GetHealth
| OptionsUpscale.

(** A request on one of the routes, through the middleware of line 420. *)
Definition serve
    (post : list N -> pystr + list (pystr * Json))
    (fetch : Json -> pystr + list N) (b64encode : list N -> pystr)
    (route : Route) : Served * list ProviderCall :=
  match route with
  | PostUpscale request =>
      cors_middleware (codes "POST")
        (λ _, let '(r, calls) := handle_upscale post fetch b64encode request in
              (json_response r, calls))
  | GetHealth =>
      cors_middleware (codes "GET") (λ _, (json_response handle_health, []))
  | OptionsUpscale =>
      cors_middleware (codes "OPTIONS") (λ _, (handle_cors_preflight, []))
  end.
End http.

(** A field of a JSON body, if the body is an object that has it. *)
Definition field (name : string) (j : Json) : option Json :=
  match j with JObj items => dict_get (codes name) items | _ => None end.

(** Four letters for every byte: a stand-in encoder that [stub_b64decode]
    undoes on zero bytes. *)
Definition stub_b64encode (bytes : list N) : pystr :=
  replicate (4 * length bytes) 65%N.

(** * Properties *)

(** ** Privileged commands *)

Lemma rejected_true ADMIN_ID from_id :
  ADMIN_ID ≠ 0 -> from_id ≠ ADMIN_ID -> rejected ADMIN_ID from_id = true.
Proof.
  intros Hadmin Hfrom. unfold rejected.
  apply andb_true_iff; split; apply negb_true_iff, Z.eqb_neq; done.
Qed.

Lemma rejected_no_admin from_id : rejected 0 from_id = false.
Proof. reflexivity. Qed.

Lemma rejected_operator ADMIN_ID : rejected ADMIN_ID ADMIN_ID = false.
Proof. unfold rejected. rewrite Z.eqb_refl. apply andb_false_r. Qed.

(** C2, as stated, fails: with the operator id left at its default 0 a
    caller with id 5, which differs from it, gets the statistics. *)
Lemma stats_answers_stranger_when_admin_unset :
  (5 ≠ 0) /\
  trace (exec (cmd_stats map_engine 0 100 5) (world0 0)) =
    [Db DbStats; Answer (StatsText (mkStats 0 0 0))].
Proof. split; [lia | reflexivity]. Qed.

(** C2 (amended): when an operator id is configured (it is not 0), a caller
    whose id differs from it gets nothing from /stats, /export and
    /broadcast: the world is left as it was, so no call is made to the chat
    client or to the store and the table is unchanged. *)
Theorem privileged_commands_reject_others
    (E : Engine) (ADMIN_ID : Z) (lower : pystr -> pystr)
    (deliver : Z -> pystr -> option pystr)
    (now from_id : Z) (message_text : option pystr) (w : World) :
  ADMIN_ID ≠ 0 -> from_id ≠ ADMIN_ID ->
  cmd_stats E ADMIN_ID now from_id w = (tt, w) /\
  cmd_export E ADMIN_ID now from_id w = (tt, w) /\
  cmd_broadcast E ADMIN_ID lower deliver from_id message_text w =
    (Returns, w).
Proof.
  intros Hadmin Hfrom.
  unfold cmd_stats, cmd_export, cmd_broadcast.
  rewrite (rejected_true _ _ Hadmin Hfrom). done.
Qed.

Lemma privileged_commands_reject_others_witness :
  cmd_stats map_engine 42 100 5 (world0 3) = (tt, world0 3) /\
  cmd_export map_engine 42 100 5 (world0 3) = (tt, world0 3) /\
  cmd_broadcast map_engine 42 ascii_lower (blocks []) 5
    (Some (codes "/broadcast hello")) (world0 3) = (Returns, world0 3).
Proof.
  apply (privileged_commands_reject_others map_engine 42 ascii_lower
           (blocks []) 100 5 (Some (codes "/broadcast hello")) (world0 3));
    lia.
Defined.

(** C10: with the operator id at 0 the check of lines 276, 292 and 320
    rejects nobody: for every caller /stats answers with the statistics,
    /export with the table, and /broadcast goes on to line 323, where it
    answers with the usage text or runs the broadcast job (or, for a message
    without text, raises). *)
Theorem admin_unset_everyone_is_operator
    (E : Engine) (lower : pystr -> pystr)
    (deliver : Z -> pystr -> option pystr)
    (now from_id : Z) (message_text : option pystr) (w : World) :
  rejected 0 from_id = false /\
  exec (cmd_stats E 0 now from_id) w =
    mkWorld (users w)
      (trace w ++ [Db DbStats] ++
       [Answer (StatsText (get_stats E now (users w)))]) /\
  exec (cmd_export E 0 now from_id) w =
    mkWorld (users w)
      (trace w ++ [Db DbExport] ++
       [AnswerDocument (UsersCsv now (export_users E (users w)))
          (ExportCaption (length (export_users E (users w))))]) /\
  exec (cmd_broadcast E 0 lower deliver from_id message_text) w =
    match message_text with
    | None => w
    | Some message_text =>
        match broadcast_text message_text with
        | [] => mkWorld (users w) (trace w ++ [Answer BroadcastUsage])
        | _ :: _ =>
            exec (broadcast_job E lower deliver
                    (broadcast_text message_text)) w
        end
    end.
Proof.
  split; [reflexivity |].
  unfold cmd_stats, cmd_export, cmd_broadcast, exec.
  rewrite rejected_no_admin.
  split; [cbn; by rewrite <- app_assoc |].
  split; [cbn; by rewrite <- app_assoc |].
  destruct message_text as [message_text |]; [| reflexivity].
  destruct (broadcast_text message_text) as [| c text]; [reflexivity |].
  unfold bind. by destruct (broadcast_job _ _ _ _ w).
Qed.

(** ** The broadcast loop *)

Section broadcast.
Context (lower : pystr -> pystr) (deliver : Z -> pystr -> option pystr).
Context (text : pystr).

Local Abbreviation reached := (delivered deliver text).
Local Abbreviation lost := (dropped lower deliver text).

Lemma attempt_spec user_id sent failed w :
  attempt lower deliver text user_id sent failed w =
    ((if reached user_id then S sent else sent,
      if reached user_id then failed else S failed),
     mkWorld
       (if lost user_id then mark_inactive user_id (users w) else users w)
       (trace w ++ SendMessage user_id text ::
          if lost user_id then [Db (DbMarkInactive user_id)] else [])).
Proof.
  unfold attempt, dropped, delivered, bind, emit. cbn.
  destruct (deliver user_id text) as [reason |]; [| reflexivity].
  destruct (unreachable lower reason); cbn; [| reflexivity].
  by rewrite <- app_assoc.
Qed.

Lemma deliveries_app t1 t2 :
  deliveries (t1 ++ t2) = deliveries t1 ++ deliveries t2.
Proof. apply omap_app. Qed.

Lemma broadcast_loop_spec n ids : forall i sent failed w,
  exists rest,
    broadcast_loop lower deliver text n i ids sent failed w =
      (((sent + length (filter (λ u, reached u = true) ids))%nat,
        (failed + length (filter (λ u, reached u = false) ids))%nat),
       mkWorld
         (foldl (λ m u, mark_inactive u m) (users w)
                (filter (λ u, lost u = true) ids))
         (trace w ++ rest)) /\
    deliveries rest = (λ u, (u, text)) <$> ids.
Proof.
  induction ids as [| u ids IH]; intros i sent failed w.
  - exists []. cbn. rewrite !Nat.add_0_r, app_nil_r. by destruct w.
  - cbn [broadcast_loop]. unfold bind. rewrite attempt_spec.
    cbn [fst snd]. rewrite !filter_cons.
    set (progress := if ((i + 1) mod 20 =? 0)%nat
                     then [EditText (BroadcastProgress (i + 1) n)] else []).
    set (sent1 := if reached u then S sent else sent).
    set (failed1 := if reached u then failed else S failed).
    set (t1 := SendMessage u text ::
               if lost u then [Db (DbMarkInactive u)] else []).
    set (m1 := if lost u then mark_inactive u (users w) else users w).
    destruct (IH (S i) sent1 failed1
                 (mkWorld m1 (trace w ++ t1 ++ progress ++ [Sleep])))
      as (rest & Hloop & Hrest).
    exists (t1 ++ progress ++ [Sleep] ++ rest). split.
    + unfold when, emit, ret. subst progress.
      destruct ((i + 1) mod 20 =? 0)%nat; cbn [fst snd users trace];
        rewrite <- ?app_assoc in *; cbn [app] in *; rewrite Hloop;
        cbn [users trace]; subst sent1 failed1 m1;
        rewrite <- ?app_assoc; cbn [app];
        destruct (reached u), (lost u);
        repeat case_decide; try congruence; cbn;
        repeat f_equal; lia.
    + rewrite !deliveries_app, Hrest. subst t1 progress.
      destruct (lost u), ((i + 1) mod 20 =? 0)%nat; reflexivity.
Qed.
End broadcast.

(** ** The table and its scans *)

Section scans.
Context (E : Engine).

Lemma elem_of_scan (m : Registry) (r : Row) :
  r ∈ scan E m <-> m !! r.1 = Some r.2.
Proof. rewrite (scan_perm E m). destruct r. apply elem_of_map_to_list. Qed.

Lemma NoDup_scan_ids (m : Registry) : NoDup (row_id <$> scan E m).
Proof.
  rewrite (scan_perm E m). apply (NoDup_fst_map_to_list m).
Qed.

Lemma length_scan (m : Registry) : length (scan E m) = size m.
Proof. rewrite (scan_perm E m). apply length_map_to_list. Qed.

Lemma elem_of_get_all_user_ids (m : Registry) (u : Z) :
  u ∈ get_all_user_ids E m <-> exists a, m !! u = Some a /\ active a = true.
Proof.
  unfold get_all_user_ids. rewrite list_elem_of_fmap. split.
  - intros ([u' a] & -> & Hin). apply list_elem_of_filter in Hin as [Hact Hin].
    apply elem_of_scan in Hin. eauto.
  - intros (a & Hm & Hact). exists (u, a). split; [done |].
    apply list_elem_of_filter. split; [done |]. by apply elem_of_scan.
Qed.

Lemma NoDup_get_all_user_ids (m : Registry) : NoDup (get_all_user_ids E m).
Proof.
  unfold get_all_user_ids.
  eapply sublist_NoDup; [apply NoDup_scan_ids |].
  apply fmap_sublist, sublist_filter.
Qed.
End scans.

Lemma lookup_mark_inactive_all (l : list Z) : forall (m : Registry) (k : Z),
  foldl (λ m u, mark_inactive u m) m l !! k =
    if decide (k ∈ l) then set_inactive <$> m !! k else m !! k.
Proof.
  induction l as [| u l IH]; intros m k; cbn.
  - by rewrite decide_False by apply not_elem_of_nil.
  - rewrite IH. unfold mark_inactive. destruct (decide (u = k)) as [-> | Hne].
    + rewrite lookup_alter_eq.
      rewrite (decide_True (P := k ∈ k :: l)) by left.
      case_decide; [| done]. by destruct (m !! k).
    + rewrite lookup_alter_ne by done.
      destruct (decide (k ∈ l)) as [Hin | Hnin].
      * by rewrite decide_True by (by right).
      * rewrite decide_False; [done |].
        intros [Heq | Hin]%elem_of_cons; [by apply Hne | done].
Qed.

Lemma length_filter_split (l : list Z) (f : Z -> bool) :
  length (filter (λ u, f u = true) l) =
    (length l - length (filter (λ u, f u = false) l))%nat /\
  (length (filter (λ u, f u = false) l) <= length l)%nat.
Proof.
  induction l as [| u l [IH1 IH2]]; [done |].
  rewrite !filter_cons. destruct (f u); repeat case_decide; try done; cbn; lia.
Qed.

Lemma filter_ext_elem_of {A} (P Q : A -> Prop)
    `{!∀ x, Decision (P x), !∀ x, Decision (Q x)} (l : list A) :
  (forall x, x ∈ l -> P x <-> Q x) -> filter P l = filter Q l.
Proof.
  induction l as [| x l IH]; intros Hext; [done |].
  rewrite !filter_cons.
  rewrite IH by (intros y Hy; apply Hext; by right).
  destruct (Hext x) as [H1 H2]; [by left |].
  repeat case_decide; tauto.
Qed.

(** ** The broadcast job *)

(** C1: a broadcast over the snapshot [ids] of the active accounts, where
    every delivery that fails does so with a reason that reads as blocked or
    deactivated: with [failing] the recipients whose delivery fails, the job
    ends with [sent = N - |failing|] and [failed = |failing|], every failing
    id is inactive in the table afterwards, every other id of the snapshot is
    still active, and the last thing sent is the summary with these counts. *)
Theorem broadcast_counters
    (E : Engine) (lower : pystr -> pystr)
    (deliver : Z -> pystr -> option pystr) (text : pystr) (w : World) :
  let ids := get_all_user_ids E (users w) in
  let failing := filter (λ u, is_Some (deliver u text)) ids in
  let sent := (length ids - length failing)%nat in
  let failed := length failing in
  (forall u reason, u ∈ ids -> deliver u text = Some reason ->
                    unreachable lower reason = true) ->
  NoDup ids /\
  exists w',
    broadcast_job E lower deliver text w = ((sent, failed), w') /\
    (forall u, u ∈ failing -> active <$> users w' !! u = Some false) /\
    (forall u, u ∈ ids -> u ∉ failing ->
               active <$> users w' !! u = Some true) /\
    last (trace w') = Some (EditText (BroadcastDone sent failed)).
Proof.
  intros ids failing sent failed Hreason.
  split; [apply NoDup_get_all_user_ids |].
  assert (Hfail :
    failing = filter (λ u, delivered deliver text u = false) ids).
  { apply list_filter_iff. intros u. unfold delivered.
    destruct (deliver u text); split; intros H; try done;
      try (by eexists); by apply is_Some_None in H. }
  assert (Hdrop : filter (λ u, dropped lower deliver text u = true) ids
                  = failing).
  { apply filter_ext_elem_of. intros u Hu. unfold dropped.
    destruct (deliver u text) as [reason |] eqn:Hd.
    - split; [by eexists | intros _; by apply (Hreason u)].
    - split; [done | intros H; by apply is_Some_None in H]. }
  unfold broadcast_job, bind, query. cbn [fst snd users trace].
  fold ids. unfold emit at 1. cbn [users trace].
  destruct (broadcast_loop_spec lower deliver text (length ids) ids 0 0 0
              (mkWorld (users w)
                 ((trace w ++ [Db DbSelectActive]) ++
                  [Answer (BroadcastProgress 0 (length ids))])))
    as (rest & -> & _).
  cbn [fst snd users trace emit ret]. rewrite Hdrop, <- Hfail.
  destruct (length_filter_split ids (delivered deliver text)) as [-> _].
  rewrite <- Hfail. cbn [Nat.add]. fold sent failed.
  eexists. split; [reflexivity |]. cbn [users trace].
  split; [| split].
  - intros u Hu. rewrite lookup_mark_inactive_all, decide_True by done.
    assert (Hin : u ∈ ids) by (by apply list_elem_of_filter in Hu as [_ ?]).
    apply elem_of_get_all_user_ids in Hin as (a & -> & _). done.
  - intros u Hin Hu. rewrite lookup_mark_inactive_all, decide_False by done.
    apply elem_of_get_all_user_ids in Hin as (a & -> & Ha). cbn. by rewrite Ha.
  - apply last_snoc.
Qed.

Lemma broadcast_counters_witness :
  NoDup (get_all_user_ids map_engine (synthetic 6)) /\
  exists w',
    broadcast_job map_engine ascii_lower (blocks [2; 5]) (codes "hi")
      (world0 6) = ((4%nat, 2%nat), w') /\
    (forall u, u ∈ [5; 2] -> active <$> users w' !! u = Some false) /\
    (forall u, u ∈ [5; 3; 6; 4; 2; 1] -> u ∉ [5; 2] ->
               active <$> users w' !! u = Some true) /\
    last (trace w') = Some (EditText (BroadcastDone 4 2)).
Proof.
  apply (broadcast_counters map_engine ascii_lower (blocks [2; 5])
           (codes "hi") (world0 6)).
  intros u reason _. unfold blocks.
  case_bool_decide; [| discriminate].
  intros [= <-]. vm_compute. reflexivity.
Defined.

(** The job, whatever the failures: what it returns, the table and the
    trace it leaves. *)
Lemma broadcast_job_spec
    (E : Engine) (lower : pystr -> pystr)
    (deliver : Z -> pystr -> option pystr) (text : pystr) (w : World) :
  let ids := get_all_user_ids E (users w) in
  let sent := length (filter (λ u, delivered deliver text u = true) ids) in
  let failed := length (filter (λ u, delivered deliver text u = false) ids) in
  exists rest,
    broadcast_job E lower deliver text w =
      ((sent, failed),
       mkWorld
         (foldl (λ m u, mark_inactive u m) (users w)
                (filter (λ u, dropped lower deliver text u = true) ids))
         (trace w ++
          [Db DbSelectActive; Answer (BroadcastProgress 0 (length ids))] ++
          rest ++ [EditText (BroadcastDone sent failed)])) /\
    deliveries rest = (λ u, (u, text)) <$> ids.
Proof.
  intros ids sent failed.
  unfold broadcast_job, bind, query. cbn [fst snd users trace].
  fold ids. unfold emit at 1. cbn [users trace].
  destruct (broadcast_loop_spec lower deliver text (length ids) ids 0 0 0
              (mkWorld (users w)
                 ((trace w ++ [Db DbSelectActive]) ++
                  [Answer (BroadcastProgress 0 (length ids))])))
    as (rest & -> & Hrest).
  exists rest. split; [| done].
  cbn [fst snd users trace emit ret Nat.add].
  by rewrite <- !app_assoc.
Qed.

(** What line 323 makes of some messages. *)
Example broadcast_text_bare : broadcast_text (codes "/broadcast") = [].
Proof. reflexivity. Qed.

Example broadcast_text_blank : broadcast_text (codes "/broadcast   ") = [].
Proof. reflexivity. Qed.

Example broadcast_text_hello :
  broadcast_text (codes "/broadcast  Hello all ") = codes "Hello all".
Proof. reflexivity. Qed.

Example broadcast_usage_run :
  exec (cmd_broadcast map_engine 42 ascii_lower (blocks [2]) 42
          (Some (codes "/broadcast "))) (world0 2) =
  mkWorld (synthetic 2) [Answer BroadcastUsage].
Proof. vm_compute. reflexivity. Qed.

Example broadcast_run :
  trace (exec (cmd_broadcast pkey_engine 42 ascii_lower (blocks [2]) 42
                 (Some (codes "/broadcast hi"))) (world0 3)) =
  [Db DbSelectActive; Answer (BroadcastProgress 0 3);
   SendMessage 1 (codes "hi"); Sleep;
   SendMessage 2 (codes "hi"); Db (DbMarkInactive 2); Sleep;
   SendMessage 3 (codes "hi"); Sleep;
   EditText (BroadcastDone 2 1)].
Proof. vm_compute. reflexivity. Qed.

(** ** Mini-app payloads *)

Section webapp.
Context (b64decode : pystr -> option (list N)).

Lemma handle_webapp_data_users now parsed w :
  users (exec (handle_webapp_data b64decode now parsed) w) = users w.
Proof.
  unfold handle_webapp_data, exec.
  by destruct (webapp_image b64decode parsed) as [[bytes |] |].
Qed.

Lemma webapp_image_not_send_result items :
  dict_get (codes "action") items ≠ Some (JStr (codes "send_result")) ->
  webapp_image b64decode (Some (JObj items)) = Some None.
Proof.
  intros Haction. cbn.
  destruct (dict_get (codes "action") items) as [[| | | | a | |] |]; try done.
  unfold pystr_eqb. case_bool_decide; [congruence | done].
Qed.

Lemma webapp_image_bad_base64 items s :
  dict_get (codes "action") items = Some (JStr (codes "send_result")) ->
  dict_get (codes "image") items = Some (JStr s) ->
  startswith (codes "data:image") s = false ->
  b64decode s = None ->
  webapp_image b64decode (Some (JObj items)) = None.
Proof.
  intros Haction Himage Hprefix Hdecode. cbn.
  rewrite Haction, Himage. cbn. rewrite Hprefix. cbn. by rewrite Hdecode.
Qed.
End webapp.

(** C4, as stated, fails: a payload without an action ([{}]) and one with
    an unknown action ([{"action": "resize"}]) get no response at all. *)
Lemma webapp_unknown_action_gets_no_response :
  trace (exec (handle_webapp_data (λ _, None) 100 (Some (JObj [])))
              (world0 0)) = [] /\
  trace (exec (handle_webapp_data (λ _, None) 100
                 (Some (JObj [(codes "action", JStr (codes "resize"))])))
              (world0 0)) = [].
Proof. split; reflexivity. Qed.

(** A data URI is cut at its first comma before it is decoded; one without
    a comma raises. *)
Example webapp_data_uri :
  exec (handle_webapp_data stub_b64decode 100
          (Some (JObj [(codes "action", JStr (codes "send_result"));
                       (codes "image",
                        JStr (codes "data:image/png;base64,AAAA"))])))
       (mkWorld ∅ []) =
  mkWorld ∅ [AnswerDocument (UpscaledPng 100 [0%N]) UpscaledCaption].
Proof. reflexivity. Qed.

Example webapp_data_uri_without_comma :
  exec (handle_webapp_data stub_b64decode 100
          (Some (JObj [(codes "action", JStr (codes "send_result"));
                       (codes "image", JStr (codes "data:image/png"))])))
       (mkWorld ∅ []) =
  mkWorld ∅ [Answer WebappError].
Proof. reflexivity. Qed.

(** ** The upscale gateway *)

Lemma read_image_none (parts : list Part) :
  Forall (λ p, part_name p ≠ Some (codes "image")) parts ->
  read_image parts = None.
Proof.
  intros Hparts. unfold read_image. generalize (@None (list N)).
  induction Hparts as [| p parts Hp _ IH]; intros acc; [done |].
  cbn [foldl]. rewrite IH.
  destruct (part_name p) as [name |]; [| done].
  unfold pystr_eqb. case_bool_decide; [congruence | done].
Qed.

(** C5: a POST /upscale whose multipart body has no part named [image] is
    answered with status 400 and a JSON body with an [error] field, and no
    call is made to the provider. *)
Theorem upscale_without_image_is_400
    (post : list N -> pystr + list (pystr * Json))
    (fetch : Json -> pystr + list N) (b64encode : list N -> pystr)
    (parts : list Part) :
  Forall (λ p, part_name p ≠ Some (codes "image")) parts ->
  exists response,
    handle_upscale post fetch b64encode (inr parts) = (response, []) /\
    status response = 400 /\
    body response = JObj [(codes "error", JStr (codes "No image provided"))].
Proof.
  intros Hparts. unfold handle_upscale.
  rewrite (read_image_none parts Hparts). eauto.
Qed.

Lemma upscale_without_image_is_400_witness :
  exists response,
    handle_upscale stub_post stub_fetch (λ b, b)
      (inr [mkPart (Some (codes "file")) [1; 2; 3]%N; mkPart None []]) =
      (response, []) /\
    status response = 400 /\
    body response = JObj [(codes "error", JStr (codes "No image provided"))].
Proof.
  apply (upscale_without_image_is_400 stub_post stub_fetch (λ b, b)).
  repeat constructor; vm_compute; discriminate.
Defined.

(** With the part present the same provider is called. *)
Example upscale_with_image_calls_provider :
  (handle_upscale stub_post stub_fetch (λ b, b)
     (inr [mkPart (Some (codes "image")) [1; 2; 3]%N])).2 =
  [PostImage [1; 2; 3]%N; GetOutput (JStr (codes "https://provider/out.png"))].
Proof. reflexivity. Qed.

(** ** Registry: upsert *)

Lemma lookup_add_user now user_id uname fname (m : Registry) :
  add_user now user_id uname fname m !! user_id =
    Some (mkAccount uname fname
            (match m !! user_id with Some a => joined a | None => now end)
            true).
Proof.
  unfold add_user. destruct (m !! user_id); by rewrite lookup_insert_eq.
Qed.

Lemma lookup_add_user_ne now user_id uname fname (m : Registry) (k : Z) :
  k ≠ user_id -> add_user now user_id uname fname m !! k = m !! k.
Proof.
  intros Hne. unfold add_user.
  destruct (m !! user_id); by rewrite lookup_insert_ne.
Qed.

Lemma add_user_fresh now user_id uname fname (m : Registry) :
  m !! user_id = None ->
  add_user now user_id uname fname m =
    <[user_id := mkAccount uname fname now true]> m.
Proof. intros Hm. unfold add_user. by rewrite Hm. Qed.

Lemma no_row_without_key (l : list Row) (k : Z) :
  k ∉ l.*1 -> filter (λ r, row_id r = k) l = [].
Proof.
  induction l as [| [k' a'] l IH]; intros Hk; [done |].
  cbn in Hk. apply not_elem_of_cons in Hk as [Hne Hk].
  rewrite filter_cons, decide_False by (cbn; congruence). by apply IH.
Qed.

(** Among rows with distinct keys, a key that is present is present once. *)
Lemma one_row_per_key (l : list Row) (k : Z) (a : Account) :
  NoDup l.*1 -> (k, a) ∈ l ->
  length (filter (λ r, row_id r = k) l) = 1%nat.
Proof.
  induction l as [| [k' a'] l IH]; intros Hdup Hin.
  - by apply elem_of_nil in Hin.
  - cbn in Hdup. apply NoDup_cons in Hdup as [Hk' Hdup]. rewrite filter_cons.
    destruct (decide (k' = k)) as [-> | Hne].
    + rewrite decide_True by done. cbn.
      by rewrite no_row_without_key.
    + rewrite decide_False by done.
      apply elem_of_cons in Hin as [[= ? ?] | Hin]; [congruence |].
      by apply IH.
Qed.

Lemma one_row_per_id (E : Engine) (m : Registry) (k : Z) (a : Account) :
  m !! k = Some a -> length (filter (λ r, row_id r = k) (scan E m)) = 1%nat.
Proof.
  intros Hm. rewrite (scan_perm E m).
  apply (one_row_per_key _ k a); [apply NoDup_fst_map_to_list |].
  by apply elem_of_map_to_list.
Qed.

(** C3: after two upserts of the same id the table holds exactly one row
    for the id, whatever the engine's scan; the row has the handle and the
    name of the second call and is active.  It keeps the join time of the
    first contact, and no other row has changed. *)
Theorem add_user_twice_one_row
    (E : Engine) (now1 now2 user_id : Z)
    (uname1 fname1 uname2 fname2 : option pystr) (m : Registry) :
  let m1 := add_user now1 user_id uname1 fname1 m in
  let m2 := add_user now2 user_id uname2 fname2 m1 in
  length (filter (λ r, row_id r = user_id) (scan E m2)) = 1%nat /\
  m2 !! user_id =
    Some (mkAccount uname2 fname2
            (match m !! user_id with Some a => joined a | None => now1 end)
            true) /\
  size m2 = size m1 /\
  (forall k, k ≠ user_id -> m2 !! k = m !! k).
Proof.
  intros m1 m2.
  assert (H2 : m2 !! user_id =
               Some (mkAccount uname2 fname2
                       (match m !! user_id with
                        | Some a => joined a | None => now1 end) true)).
  { subst m2 m1. by rewrite !lookup_add_user. }
  split; [by eapply one_row_per_id |].
  split; [done |].
  split.
  - subst m2. unfold add_user at 1.
    subst m1. rewrite lookup_add_user.
    apply map_size_insert_Some. rewrite lookup_add_user. by eexists.
  - intros k Hk. subst m2 m1. by rewrite !lookup_add_user_ne.
Qed.

Example add_user_twice_run :
  let m := add_user 20 7 (Some (codes "neo")) (Some (codes "Thomas"))
             (mark_inactive 7
                (add_user 10 7 (Some (codes "tom")) None (synthetic 2))) in
  scan pkey_engine m =
    [(1, mkAccount None None 1 true); (2, mkAccount None None 2 true);
     (7, mkAccount (Some (codes "neo")) (Some (codes "Thomas")) 10 true)].
Proof. vm_compute. reflexivity. Qed.

(** ** Registry: the active ids *)

(** C8, as stated, fails: when the engine answers the query of line 91 from
    the primary-key index, the account that joined second is listed first. *)
Lemma active_ids_not_in_join_order :
  get_all_user_ids pkey_engine two_joined = [3; 7] /\
  joined <$> two_joined !! 3 = Some 2 /\
  joined <$> two_joined !! 7 = Some 1 /\
  ~ in_join_order two_joined (get_all_user_ids pkey_engine two_joined).
Proof.
  repeat split; try (vm_compute; reflexivity).
  intros Hsorted.
  assert (Heq : omap (λ u, joined <$> two_joined !! u)
                  (get_all_user_ids pkey_engine two_joined) = [2; 1])
    by (vm_compute; reflexivity).
  unfold in_join_order in Hsorted. rewrite Heq in Hsorted.
  apply Sorted_inv in Hsorted as [_ Hhd].
  apply HdRel_inv in Hhd. lia.
Qed.

(** C8 (amended): the list holds exactly the ids of the accounts that are
    flagged active, each once, in the order in which the engine's scan of
    the table yields their rows; the query asks for no order, so the order
    need not be that of the join times. *)
Theorem get_all_user_ids_exactly_active (E : Engine) (m : Registry) :
  NoDup (get_all_user_ids E m) /\
  (forall u, u ∈ get_all_user_ids E m <->
             exists a, m !! u = Some a /\ active a = true) /\
  get_all_user_ids E m `sublist_of` (row_id <$> scan E m).
Proof.
  split; [apply NoDup_get_all_user_ids |].
  split; [apply elem_of_get_all_user_ids |].
  apply fmap_sublist, sublist_filter.
Qed.

(** ** Registry: statistics *)

Lemma count_scan (E : Engine) (P : Row -> Prop) `{!∀ r, Decision (P r)}
    (m : Registry) :
  length (filter P (scan E m)) = count_rows P m.
Proof. unfold count_rows. by rewrite (scan_perm E m). Qed.

Lemma count_rows_insert (P : Row -> Prop) `{!∀ r, Decision (P r)}
    (m : Registry) (u : Z) (a : Account) :
  m !! u = None ->
  count_rows P (<[u := a]> m) =
    ((if decide (P (u, a)) then 1 else 0) + count_rows P m)%nat.
Proof.
  intros Hm. unfold count_rows.
  rewrite (map_to_list_insert m u a Hm), filter_cons.
  by case_decide.
Qed.

(** C7: [get_stats] returns the number of rows, the number of active rows
    and the number of rows that joined later than 24 hours before the call;
    when no row has joined after the call, these are the rows whose join
    time lies in the 24 hours up to the call.  A new account that joined 25
    hours before the call does not count as new, one that joined 1 hour
    before it does. *)
Theorem get_stats_counts (E : Engine) (now : Z) (m : Registry) :
  total (get_stats E now m) = size m /\
  st_active (get_stats E now m) = count_rows (λ r, row_active r = true) m /\
  new_24h (get_stats E now m) =
    count_rows (λ r, now - hours 24 < row_joined r) m /\
  (map_Forall (λ _ a, joined a <= now) m ->
   new_24h (get_stats E now m) =
     count_rows (λ r, now - hours 24 < row_joined r <= now) m) /\
  (forall u uname fname,
     m !! u = None ->
     new_24h (get_stats E now (add_user (now - hours 25) u uname fname m)) =
       new_24h (get_stats E now m) /\
     new_24h (get_stats E now (add_user (now - hours 1) u uname fname m)) =
       S (new_24h (get_stats E now m))).
Proof.
  unfold get_stats. cbn [total st_active new_24h].
  rewrite !count_scan, length_scan.
  repeat split.
  - intros Hpast. unfold count_rows. f_equal.
    apply filter_ext_elem_of. intros [u a] Hin.
    apply elem_of_map_to_list in Hin. specialize (Hpast u a Hin).
    unfold row_joined. cbn in *. lia.
  - rewrite count_scan, add_user_fresh, count_rows_insert by done.
    rewrite decide_False; [done |]. unfold row_joined, hours. cbn. lia.
  - rewrite count_scan, add_user_fresh, count_rows_insert by done.
    rewrite decide_True; [done |]. unfold row_joined, hours. cbn. lia.
Qed.

Lemma get_stats_counts_witness :
  new_24h (get_stats map_engine (hours 100) (synthetic 3)) =
    count_rows (λ r, hours 100 - hours 24 < row_joined r <= hours 100)
      (synthetic 3) /\
  new_24h (get_stats map_engine (hours 100)
             (add_user (hours 100 - hours 25) 9 None None (synthetic 3))) =
    new_24h (get_stats map_engine (hours 100) (synthetic 3)) /\
  new_24h (get_stats map_engine (hours 100)
             (add_user (hours 100 - hours 1) 9 None None (synthetic 3))) =
    S (new_24h (get_stats map_engine (hours 100) (synthetic 3))).
Proof.
  destruct (get_stats_counts map_engine (hours 100) (synthetic 3))
    as (_ & _ & _ & Hwindow & Hnew).
  split.
  - apply Hwindow. apply (bool_decide_unpack _). vm_compute. reflexivity.
  - apply (Hnew 9 None None). vm_compute. reflexivity.
Defined.

Example get_stats_run :
  let m := mark_inactive 2
             (add_user (hours 99) 8 None None
                (add_user (hours 75) 9 None None (synthetic 2))) in
  get_stats pkey_engine (hours 100) m = mkStats 4 1 3.
Proof. vm_compute. reflexivity. Qed.

(** ** Registry: export *)

Lemma export_users_perm (E : Engine) (m : Registry) :
  export_users E m ≡ₚ map_to_list m.
Proof.
  unfold export_users. by rewrite merge_sort_Permutation, (scan_perm E m).
Qed.

Lemma export_users_sorted (E : Engine) (m : Registry) :
  StronglySorted joined_desc (export_users E m).
Proof. apply StronglySorted_merge_sort; apply _. Qed.

(** When no two rows share a join time, the export is the one list of all
    rows in descending order of join time. *)
Lemma export_users_unique (E : Engine) (m : Registry) (l : list Row) :
  l ≡ₚ map_to_list m ->
  StronglySorted joined_desc l ->
  (forall r1 r2,
     r1 ∈ l -> r2 ∈ l -> row_joined r1 = row_joined r2 -> r1 = r2) ->
  export_users E m = l.
Proof.
  intros Hperm Hsorted Hinj.
  apply (StronglySorted_unique_strong joined_desc).
  - intros r1 r2 Hr1 Hr2 H12 H21.
    apply Hinj; [| done |].
    + by rewrite Hperm, <- (export_users_perm E m).
    + unfold joined_desc in *. lia.
  - apply export_users_sorted.
  - done.
  - by rewrite export_users_perm.
Qed.

(** C6: the export is a full snapshot, so every row of the table is in it,
    active or not, and it is in descending order of join time.  Accounts A,
    B and C inserted in this order into an empty table, at increasing times,
    are exported as [C, B, A], also after B has been deactivated. *)
Theorem export_users_newest_first (E : Engine) :
  (forall m, export_users E m ≡ₚ map_to_list m) /\
  (forall m u a, m !! u = Some a -> (u, a) ∈ export_users E m) /\
  (forall m, StronglySorted joined_desc (export_users E m)) /\
  (forall idA idB idC tA tB tC unA fnA unB fnB unC fnC,
     idA ≠ idB -> idA ≠ idC -> idB ≠ idC -> tA < tB -> tB < tC ->
     let m := add_user tC idC unC fnC
                (add_user tB idB unB fnB
                   (add_user tA idA unA fnA ∅)) in
     export_users E m =
       [(idC, mkAccount unC fnC tC true);
        (idB, mkAccount unB fnB tB true);
        (idA, mkAccount unA fnA tA true)] /\
     export_users E (mark_inactive idB m) =
       [(idC, mkAccount unC fnC tC true);
        (idB, mkAccount unB fnB tB false);
        (idA, mkAccount unA fnA tA true)]).
Proof.
  split; [apply export_users_perm |].
  split.
  { intros m u a Hm. rewrite export_users_perm. by apply elem_of_map_to_list. }
  split; [apply export_users_sorted |].
  intros idA idB idC tA tB tC unA fnA unB fnB unC fnC HAB HAC HBC Ht1 Ht2 m.
  assert (Hm : m = <[idC := mkAccount unC fnC tC true]>
                     (<[idB := mkAccount unB fnB tB true]>
                        (<[idA := mkAccount unA fnA tA true]> ∅))).
  { subst m. rewrite (add_user_fresh tA) by apply lookup_empty.
    rewrite (add_user_fresh tB) by (by rewrite lookup_insert_ne).
    rewrite (add_user_fresh tC); [done |].
    by rewrite !lookup_insert_ne. }
  assert (Hm' : mark_inactive idB m =
                <[idC := mkAccount unC fnC tC true]>
                  (<[idB := mkAccount unB fnB tB false]>
                     (<[idA := mkAccount unA fnA tA true]> ∅))).
  { rewrite Hm. unfold mark_inactive.
    rewrite alter_insert_ne by done. by rewrite alter_insert_eq. }
  assert (Hsorted : forall b,
            StronglySorted joined_desc
              [(idC, mkAccount unC fnC tC true);
               (idB, mkAccount unB fnB tB b);
               (idA, mkAccount unA fnA tA true)]).
  { intros b. repeat constructor; unfold joined_desc, row_joined; cbn; lia. }
  assert (Hinj : forall b (r1 r2 : Row),
            r1 ∈ [(idC, mkAccount unC fnC tC true);
                  (idB, mkAccount unB fnB tB b);
                  (idA, mkAccount unA fnA tA true)] ->
            r2 ∈ [(idC, mkAccount unC fnC tC true);
                  (idB, mkAccount unB fnB tB b);
                  (idA, mkAccount unA fnA tA true)] ->
            row_joined r1 = row_joined r2 -> r1 = r2).
  { intros b r1 r2 H1 H2.
    repeat (apply elem_of_cons in H1 as [-> | H1]);
      try (by apply elem_of_nil in H1);
      repeat (apply elem_of_cons in H2 as [-> | H2]);
      try (by apply elem_of_nil in H2);
      unfold row_joined; cbn; intros; try done; lia. }
  split.
  - apply export_users_unique; [| apply Hsorted | apply Hinj].
    rewrite Hm. rewrite !map_to_list_insert, map_to_list_empty; [done | ..];
      by rewrite ?lookup_insert_ne, ?lookup_empty.
  - apply export_users_unique; [| apply Hsorted | apply Hinj].
    rewrite Hm'. rewrite !map_to_list_insert, map_to_list_empty; [done | ..];
      by rewrite ?lookup_insert_ne, ?lookup_empty.
Qed.

Lemma export_users_newest_first_witness :
  let m := add_user 30 5 None (Some (codes "C"))
             (add_user 20 9 None (Some (codes "B"))
                (add_user 10 7 None (Some (codes "A")) ∅)) in
  export_users map_engine m =
    [(5, mkAccount None (Some (codes "C")) 30 true);
     (9, mkAccount None (Some (codes "B")) 20 true);
     (7, mkAccount None (Some (codes "A")) 10 true)] /\
  export_users map_engine (mark_inactive 9 m) =
    [(5, mkAccount None (Some (codes "C")) 30 true);
     (9, mkAccount None (Some (codes "B")) 20 false);
     (7, mkAccount None (Some (codes "A")) 10 true)].
Proof.
  destruct (export_users_newest_first map_engine) as (_ & _ & _ & H).
  apply (H 7 9 5 10 20 30); lia.
Defined.

(** * Further properties of the registry *)

Lemma set_inactive_inactive (a : Account) :
  active a = false -> set_inactive a = a.
Proof. destruct a as [un fn j act]. cbn. by intros ->. Qed.

Lemma lookup_mark_inactive (u k : Z) (m : Registry) :
  mark_inactive u m !! k =
    if decide (k = u) then set_inactive <$> m !! k else m !! k.
Proof.
  unfold mark_inactive. case_decide as Hk.
  - subst k. apply lookup_alter_eq.
  - by apply lookup_alter_ne.
Qed.

(** X1: deactivating is idempotent, and it changes nothing when the id is
    unknown or the account is inactive already. *)
Theorem mark_inactive_idempotent (u : Z) (m : Registry) :
  mark_inactive u (mark_inactive u m) = mark_inactive u m /\
  (m !! u = None -> mark_inactive u m = m) /\
  (forall a, m !! u = Some a -> active a = false -> mark_inactive u m = m) /\
  dom (mark_inactive u m) = dom m.
Proof.
  split; [| split; [| split]].
  - apply map_eq. intros k. rewrite !lookup_mark_inactive.
    case_decide; [| done]. by destruct (m !! k).
  - intros Hu. apply map_eq. intros k. rewrite lookup_mark_inactive.
    case_decide; [| done]. subst k. by rewrite Hu.
  - intros a Hu Ha. apply map_eq. intros k. rewrite lookup_mark_inactive.
    case_decide; [| done]. subst k. rewrite Hu. cbn.
    by rewrite set_inactive_inactive.
  - apply dom_alter_L.
Qed.

Lemma mark_inactive_idempotent_witness :
  mark_inactive 9 (synthetic 2) = synthetic 2 /\
  mark_inactive 2 (mark_inactive 2 (synthetic 2)) =
    mark_inactive 2 (synthetic 2).
Proof.
  destruct (mark_inactive_idempotent 9 (synthetic 2)) as (_ & Hghost & _).
  destruct (mark_inactive_idempotent 2 (mark_inactive 2 (synthetic 2)))
    as (_ & _ & Hagain & _).
  split.
  - apply Hghost. vm_compute. reflexivity.
  - apply (Hagain (mkAccount None None 2 false)); vm_compute; reflexivity.
Defined.

(** X2: whatever is written to the table afterwards, an account that is
    in it stays in it, with the join time it has. *)
Theorem account_outlives_writes
    (ops : list Write) (m : Registry) (u : Z) (a : Account) :
  m !! u = Some a ->
  exists a', apply_writes ops m !! u = Some a' /\ joined a' = joined a.
Proof.
  revert m a. induction ops as [| op ops IH]; intros m a Hu.
  - exists a. done.
  - cbn. destruct op as [now k un fn | k]; cbn.
    + destruct (decide (k = u)) as [-> | Hne].
      * edestruct (IH (add_user now u un fn m)) as (a' & Ha' & Hj).
        { apply lookup_add_user. }
        exists a'. split; [done |]. rewrite Hj. cbn. by rewrite Hu.
      * apply IH. by rewrite lookup_add_user_ne.
    + destruct (IH (mark_inactive k m)
                  (if decide (u = k) then set_inactive a else a))
        as (a' & Ha' & Hj).
      { rewrite lookup_mark_inactive, Hu. by case_decide. }
      exists a'. split; [done |]. rewrite Hj. by case_decide.
Qed.

Lemma account_outlives_writes_witness :
  exists a',
    apply_writes [MarkInactive 2; AddUser 50 2 (Some (codes "bob")) None;
                  AddUser 60 7 None None; MarkInactive 2]
      (synthetic 3) !! 2 = Some a' /\
    joined a' = 2.
Proof.
  apply (account_outlives_writes _ (synthetic 3) 2
           (mkAccount None None 2 true)).
  vm_compute. reflexivity.
Defined.

(** X3: an account that has been deactivated is in the list of active ids
    again after its next upsert, with the join time it had; deactivating
    takes an id off the list and leaves the other ids of the list alone. *)
Theorem upsert_reactivates
    (E : Engine) (now u : Z) (uname fname : option pystr)
    (m : Registry) (a : Account) :
  m !! u = Some a ->
  let m' := add_user now u uname fname (mark_inactive u m) in
  (u ∉ get_all_user_ids E (mark_inactive u m)) /\
  (u ∈ get_all_user_ids E m') /\
  m' !! u = Some (mkAccount uname fname (joined a) true) /\
  (forall k, k ≠ u ->
     (k ∈ get_all_user_ids E (mark_inactive u m) <->
      k ∈ get_all_user_ids E m) /\
     (k ∈ get_all_user_ids E m' <-> k ∈ get_all_user_ids E m)).
Proof.
  intros Hu m'.
  assert (Hm' : m' !! u = Some (mkAccount uname fname (joined a) true)).
  { subst m'. rewrite lookup_add_user, lookup_mark_inactive.
    rewrite decide_True by done. by rewrite Hu. }
  split; [| split; [| split; [done |]]].
  - rewrite elem_of_get_all_user_ids. intros (a' & Ha' & Hact).
    rewrite lookup_mark_inactive, decide_True, Hu in Ha' by done.
    injection Ha' as <-. discriminate.
  - apply elem_of_get_all_user_ids. eauto.
  - intros k Hk. rewrite !elem_of_get_all_user_ids. subst m'.
    rewrite lookup_add_user_ne by done.
    by rewrite lookup_mark_inactive, decide_False by done.
Qed.

Lemma upsert_reactivates_witness :
  (2 ∉ get_all_user_ids pkey_engine (mark_inactive 2 (synthetic 3))) /\
  (2 ∈ get_all_user_ids pkey_engine
         (add_user 50 2 None None (mark_inactive 2 (synthetic 3)))).
Proof.
  destruct (upsert_reactivates pkey_engine 50 2 None None (synthetic 3)
              (mkAccount None None 2 true)) as (H1 & H2 & _).
  - vm_compute. reflexivity.
  - split; [exact H1 | exact H2].
Defined.

(** X4: the queries agree with each other on one table: the total of the
    statistics is the number of exported rows, the active count is the
    length of the list of active ids, and neither the active count nor the
    count of new accounts exceeds the total. *)
Theorem queries_agree (E1 E2 E3 : Engine) (now : Z) (m : Registry) :
  total (get_stats E1 now m) = length (export_users E2 m) /\
  st_active (get_stats E1 now m) = length (get_all_user_ids E3 m) /\
  (st_active (get_stats E1 now m) <= total (get_stats E1 now m))%nat /\
  (new_24h (get_stats E1 now m) <= total (get_stats E1 now m))%nat.
Proof.
  unfold get_stats. cbn [total st_active new_24h].
  split; [| split; [| split]].
  - by rewrite length_scan, export_users_perm, length_map_to_list.
  - unfold get_all_user_ids. by rewrite length_fmap, !count_scan.
  - apply length_filter.
  - apply length_filter.
Qed.

Lemma registry_split (m : Registry) (u : Z) (a : Account) :
  m !! u = Some a ->
  m = <[u := a]> (delete u m) /\
  mark_inactive u m = <[u := set_inactive a]> (delete u m) /\
  delete u m !! u = None.
Proof.
  intros Hu. split; [| split].
  - by rewrite insert_delete_id.
  - apply map_eq. intros k. rewrite lookup_mark_inactive.
    destruct (decide (k = u)) as [-> | Hne].
    + by rewrite lookup_insert_eq, Hu.
    + by rewrite lookup_insert_ne, lookup_delete_ne.
  - apply lookup_delete_eq.
Qed.

(** X5: how the writes move the statistics.  A first contact adds one to
    the total and to the active count; the upsert of a known account leaves
    the total; deactivating an active account takes one off the active count
    and leaves the total and the count of new accounts. *)
Theorem stats_follow_writes
    (E : Engine) (now t u : Z) (uname fname : option pystr) (m : Registry) :
  let before := get_stats E now m in
  (m !! u = None ->
   let after := get_stats E now (add_user t u uname fname m) in
   total after = S (total before) /\ st_active after = S (st_active before)) /\
  (is_Some (m !! u) ->
   total (get_stats E now (add_user t u uname fname m)) = total before) /\
  (forall a, m !! u = Some a -> active a = true ->
   let after := get_stats E now (mark_inactive u m) in
   total after = total before /\
   S (st_active after) = st_active before /\
   new_24h after = new_24h before).
Proof.
  unfold get_stats. cbn [total st_active new_24h].
  rewrite !count_scan, !length_scan.
  split; [| split].
  - intros Hu. rewrite add_user_fresh by done.
    rewrite map_size_insert_None, count_rows_insert by done.
    by rewrite decide_True.
  - intros [a Hu]. unfold add_user. rewrite Hu.
    apply map_size_insert_Some. by eexists.
  - intros a Hu Ha.
    destruct (registry_split m u a Hu) as (Hm & Hm' & Hdel).
    rewrite Hm'. set (m0 := delete u m) in *. clearbody m0. subst m.
    rewrite !map_size_insert_None, !count_rows_insert by done.
    split; [done |]. split.
    + rewrite decide_False by (unfold row_active; cbn; discriminate).
      by rewrite decide_True by done.
    + unfold row_joined. cbn. by repeat case_decide.
Qed.

Lemma stats_follow_writes_witness :
  total (get_stats map_engine 100 (add_user 50 9 None None (synthetic 3))) =
    S (total (get_stats map_engine 100 (synthetic 3))) /\
  total (get_stats map_engine 100 (add_user 50 2 None None (synthetic 3))) =
    total (get_stats map_engine 100 (synthetic 3)) /\
  S (st_active (get_stats map_engine 100 (mark_inactive 2 (synthetic 3)))) =
    st_active (get_stats map_engine 100 (synthetic 3)).
Proof.
  destruct (stats_follow_writes map_engine 100 50 9 None None (synthetic 3))
    as (Hnew & _ & _).
  destruct (stats_follow_writes map_engine 100 50 2 None None (synthetic 3))
    as (_ & Hknown & Hoff).
  split; [| split].
  - apply Hnew. vm_compute. reflexivity.
  - apply Hknown. vm_compute. by eexists.
  - apply (Hoff (mkAccount None None 2 true)); vm_compute; reflexivity.
Defined.

Lemma NoDup_fmap_inj_on {A B} (f : A -> B) (l : list A) (x y : A) :
  NoDup (f <$> l) -> x ∈ l -> y ∈ l -> f x = f y -> x = y.
Proof.
  induction l as [| z l IH]; intros Hdup Hx Hy Hf.
  - by apply elem_of_nil in Hx.
  - cbn in Hdup. apply NoDup_cons in Hdup as [Hz Hdup].
    apply elem_of_cons in Hx as [-> | Hx], Hy as [-> | Hy]; [done | | |].
    + destruct Hz. rewrite Hf. by apply list_elem_of_fmap_2.
    + destruct Hz. rewrite <- Hf. by apply list_elem_of_fmap_2.
    + by apply IH.
Qed.

(** X6: when no two accounts share a join time, the export does not depend
    on the order in which the engine scans the table. *)
Theorem export_users_engine_independent (E1 E2 : Engine) (m : Registry) :
  NoDup (row_joined <$> map_to_list m) ->
  export_users E1 m = export_users E2 m.
Proof.
  intros Hdup. apply export_users_unique.
  - apply export_users_perm.
  - apply export_users_sorted.
  - intros r1 r2 H1 H2 Hj. rewrite export_users_perm in H1, H2.
    by apply (NoDup_fmap_inj_on row_joined (map_to_list m)).
Qed.

Lemma export_users_engine_independent_witness :
  export_users map_engine two_joined = export_users pkey_engine two_joined.
Proof.
  apply export_users_engine_independent.
  apply (bool_decide_unpack _). vm_compute. reflexivity.
Defined.

(** * Further properties of the broadcast job *)

Section job.
Context (E : Engine) (lower : pystr -> pystr).
Context (deliver : Z -> pystr -> option pystr) (text : pystr).

Local Abbreviation reached := (delivered deliver text).
Local Abbreviation lost := (dropped lower deliver text).

Lemma broadcast_loop_events n ids : forall i sent failed w,
  trace (exec (broadcast_loop lower deliver text n i ids sent failed) w) =
    trace w ++ loop_events lower deliver text n i ids.
Proof.
  induction ids as [| u ids IH]; intros i sent failed w.
  - cbn. by rewrite app_nil_r.
  - unfold exec in *. cbn [broadcast_loop loop_events]. unfold bind.
    rewrite attempt_spec. cbn [fst snd].
    unfold when, emit, ret.
    destruct ((i + 1) mod 20 =? 0)%nat; cbn [fst snd users trace];
      rewrite IH; cbn [trace]; rewrite <- ?app_assoc; cbn [app];
      destruct (lost u); reflexivity.
Qed.

Lemma broadcast_job_users w :
  users (exec (broadcast_job E lower deliver text) w) =
    foldl (λ m u, mark_inactive u m) (users w)
          (filter (λ u, lost u = true) (get_all_user_ids E (users w))).
Proof.
  unfold exec.
  destruct (broadcast_job_spec E lower deliver text w) as (rest & -> & _).
  reflexivity.
Qed.

Lemma broadcast_job_events w :
  let ids := get_all_user_ids E (users w) in
  let counts := (broadcast_job E lower deliver text w).1 in
  trace (exec (broadcast_job E lower deliver text) w) =
    trace w ++
    [Db DbSelectActive; Answer (BroadcastProgress 0 (length ids))] ++
    loop_events lower deliver text (length ids) 0 ids ++
    [EditText (BroadcastDone counts.1 counts.2)].
Proof.
  intros ids counts. subst counts.
  unfold exec, broadcast_job, bind, query, emit, ret.
  cbn [fst snd users trace]. fold ids.
  pose proof (broadcast_loop_events (length ids) ids 0 0 0
                (mkWorld (users w)
                   ((trace w ++ [Db DbSelectActive]) ++
                    [Answer (BroadcastProgress 0 (length ids))]))) as Hev.
  unfold exec in Hev.
  destruct (broadcast_loop lower deliver text (length ids) 0 ids 0 0 _)
    as [counts w1].
  cbn [fst snd trace] in *. rewrite Hev.
  by rewrite <- !app_assoc.
Qed.

Lemma loop_events_deliveries n ids : forall i,
  deliveries (loop_events lower deliver text n i ids) =
    (λ u, (u, text)) <$> ids.
Proof.
  induction ids as [| u ids IH]; intros i; [done |].
  cbn [loop_events]. rewrite !deliveries_app, IH.
  destruct (lost u), ((i + 1) mod 20 =? 0)%nat; reflexivity.
Qed.

Lemma count_events_app p t1 t2 :
  count_events p (t1 ++ t2) = (count_events p t1 + count_events p t2)%nat.
Proof. unfold count_events. by rewrite filter_app, length_app. Qed.

Lemma count_events_one p e :
  count_events p [e] = if p e then 1%nat else 0%nat.
Proof.
  unfold count_events. rewrite filter_cons, filter_nil.
  destruct (p e); by case_decide.
Qed.

Lemma count_events_nil p : count_events p [] = 0%nat.
Proof. reflexivity. Qed.

Ltac count_loop_events :=
  rewrite ?count_events_app, ?count_events_one, ?count_events_nil;
  cbn [is_sleep is_progress is_write length].

Lemma loop_events_sleeps n ids : forall i,
  count_events is_sleep (loop_events lower deliver text n i ids) = length ids.
Proof.
  induction ids as [| u ids IH]; intros i; [done |].
  cbn [loop_events]. rewrite !count_events_app, IH.
  destruct (lost u), ((i + 1) mod 20 =? 0)%nat; count_loop_events; lia.
Qed.

Lemma loop_events_writes n ids : forall i,
  count_events is_write (loop_events lower deliver text n i ids) =
    length (filter (λ u, lost u = true) ids).
Proof.
  induction ids as [| u ids IH]; intros i; [done |].
  cbn [loop_events]. rewrite !count_events_app, IH, filter_cons.
  destruct (lost u), ((i + 1) mod 20 =? 0)%nat;
    count_loop_events; repeat case_decide; try done; cbn [length]; lia.
Qed.

Lemma div20_succ (i : nat) :
  (S i / 20 = i / 20 + if (i + 1) mod 20 =? 0 then 1 else 0)%nat.
Proof.
  pose proof (Nat.div_mod_eq i 20) as Hi.
  pose proof (Nat.mod_upper_bound i 20 ltac:(lia)) as Hr.
  pose proof (Nat.div_mod_eq (S i) 20) as Hs.
  pose proof (Nat.mod_upper_bound (S i) 20 ltac:(lia)) as Hsr.
  replace (i + 1)%nat with (S i) by lia.
  destruct (Nat.eqb_spec (S i mod 20) 0); lia.
Qed.

Lemma loop_events_blocks_from n ids : forall i,
  loop_events lower deliver text n i ids =
    concat
      (imap (λ k u,
               [SendMessage u text] ++
               (if lost u then [Db (DbMarkInactive u)] else []) ++
               (if ((i + k + 1) mod 20 =? 0)%nat
                then [EditText (BroadcastProgress (i + k + 1) n)] else []) ++
               [Sleep])
            ids).
Proof.
  induction ids as [| u ids IH]; intros i; [done |].
  cbn [loop_events imap concat]. rewrite IH, Nat.add_0_r, <- !app_assoc.
  repeat (apply (f_equal2 app); [reflexivity |]).
  apply (f_equal (@concat Event)), imap_ext. intros k u' _. unfold compose.
  by replace (i + S k)%nat with (S i + k)%nat by lia.
Qed.

Lemma loop_events_blocks n ids :
  loop_events lower deliver text n 0 ids =
    concat
      (imap (λ i u,
               [SendMessage u text] ++
               (if lost u then [Db (DbMarkInactive u)] else []) ++
               (if ((i + 1) mod 20 =? 0)%nat
                then [EditText (BroadcastProgress (i + 1) n)] else []) ++
               [Sleep])
            ids).
Proof. apply loop_events_blocks_from. Qed.

Lemma loop_events_progress n ids : forall i,
  count_events is_progress (loop_events lower deliver text n i ids) =
    ((i + length ids) / 20 - i / 20)%nat.
Proof.
  induction ids as [| u ids IH]; intros i.
  - cbn. rewrite Nat.add_0_r. lia.
  - cbn [loop_events length]. rewrite !count_events_app, IH.
    replace (i + S (length ids))%nat with (S i + length ids)%nat by lia.
    pose proof (div20_succ i) as Hdiv.
    assert (Hmono : (S i / 20 <= (S i + length ids) / 20)%nat)
      by (apply Nat.Div0.div_le_mono; lia).
    revert Hdiv.
    destruct (lost u), ((i + 1) mod 20 =? 0)%nat; intros Hdiv;
      count_loop_events; lia.
Qed.
End job.

(** X7: whatever the outcome of each delivery, the counters of a job add up
    to the size of its snapshot: [failed] counts the recipients whose
    delivery raised, for any reason, [sent] the others, and the summary that
    ends the trace shows these two numbers. *)
Theorem broadcast_counts_add_up
    (E : Engine) (lower : pystr -> pystr)
    (deliver : Z -> pystr -> option pystr) (text : pystr) (w : World) :
  let ids := get_all_user_ids E (users w) in
  let r := broadcast_job E lower deliver text w in
  (r.1.1 + r.1.2 = length ids)%nat /\
  r.1.2 = length (filter (λ u, is_Some (deliver u text)) ids) /\
  last (trace r.2) = Some (EditText (BroadcastDone r.1.1 r.1.2)).
Proof.
  intros ids r. subst r.
  destruct (broadcast_job_spec E lower deliver text w) as (rest & -> & _).
  fold ids. cbn [fst snd trace].
  destruct (length_filter_split ids (delivered deliver text)) as [Hsent Hle].
  split; [lia |]. split.
  - f_equal. apply list_filter_iff. intros u. unfold delivered.
    destruct (deliver u text); split; intros H; try done;
      try (by eexists); by apply is_Some_None in H.
  - by rewrite !app_assoc, last_snoc.
Qed.

(** X8: what a job does to the table, whatever the failures.  Only the
    recipients whose failure reads as blocked or deactivated are touched, and
    they end inactive; a recipient that was reached, or whose failure reads
    otherwise, keeps its row as it was; no row is added or removed, and no
    row changes its handle, name or join time. *)
Theorem broadcast_touches_only_unreachable
    (E : Engine) (lower : pystr -> pystr)
    (deliver : Z -> pystr -> option pystr) (text : pystr) (w : World) :
  let ids := get_all_user_ids E (users w) in
  let after := users (exec (broadcast_job E lower deliver text) w) in
  (forall u, u ∈ ids -> dropped lower deliver text u = true ->
             active <$> after !! u = Some false) /\
  (forall u, u ∉ ids \/ dropped lower deliver text u = false ->
             after !! u = users w !! u) /\
  dom after = dom (users w) /\
  (forall u a', after !! u = Some a' ->
     exists a, users w !! u = Some a /\ username a' = username a /\
               first_name a' = first_name a /\ joined a' = joined a).
Proof.
  intros ids after. subst after. rewrite broadcast_job_users. fold ids.
  set (gone := filter (λ u, dropped lower deliver text u = true) ids).
  assert (Hgone : forall u, u ∈ gone <->
                            u ∈ ids /\ dropped lower deliver text u = true).
  { intros u. subst gone. rewrite list_elem_of_filter. tauto. }
  split; [| split; [| split]].
  - intros u Hu Hd. rewrite lookup_mark_inactive_all.
    rewrite decide_True by (by apply Hgone).
    apply elem_of_get_all_user_ids in Hu as (a & -> & _). done.
  - intros u Hu. rewrite lookup_mark_inactive_all.
    rewrite decide_False; [done |].
    intros (Hin & Hd)%Hgone. destruct Hu as [Hu | Hu]; [done | congruence].
  - apply set_eq. intros u. rewrite !elem_of_dom, lookup_mark_inactive_all.
    case_decide; [| done]. by rewrite fmap_is_Some.
  - intros u a'. rewrite lookup_mark_inactive_all.
    case_decide.
    + destruct (users w !! u) as [a |]; [| done].
      intros [= <-]. by exists a.
    + intros Hu. by exists a'.
Qed.

Lemma broadcast_touches_only_unreachable_witness :
  let after :=
    users (exec (broadcast_job pkey_engine ascii_lower (blocks [2])
                   (codes "hi")) (world0 3)) in
  active <$> after !! 2 = Some false /\ after !! 3 = synthetic 3 !! 3.
Proof.
  destruct (broadcast_touches_only_unreachable pkey_engine ascii_lower
              (blocks [2]) (codes "hi") (world0 3)) as (Hoff & Hsame & _).
  split.
  - apply Hoff; [| vm_compute; reflexivity].
    apply (bool_decide_unpack _). vm_compute. reflexivity.
  - apply Hsame. right. vm_compute. reflexivity.
Defined.

(** X9: the shape of a job's trace.  After the snapshot and the opening
    progress message comes one block per id of the snapshot, in snapshot
    order and with no id twice, then the summary.  The block of the k-th id
    is: the delivery attempt; the write that deactivates the recipient, if
    it is dropped; the progress edit k/N, if k is a multiple of 20; the
    pause.  So there are N pauses, N div 20 progress edits and one write for
    every recipient that is dropped. *)
Theorem broadcast_trace_shape
    (E : Engine) (lower : pystr -> pystr)
    (deliver : Z -> pystr -> option pystr) (text : pystr) (w : World) :
  let ids := get_all_user_ids E (users w) in
  let r := broadcast_job E lower deliver text w in
  exists loop,
    trace r.2 =
      trace w ++
      [Db DbSelectActive; Answer (BroadcastProgress 0 (length ids))] ++
      loop ++ [EditText (BroadcastDone r.1.1 r.1.2)] /\
    loop =
      concat
        (imap (λ i u,
                 [SendMessage u text] ++
                 (if dropped lower deliver text u
                  then [Db (DbMarkInactive u)] else []) ++
                 (if ((i + 1) mod 20 =? 0)%nat
                  then [EditText (BroadcastProgress (i + 1) (length ids))]
                  else []) ++
                 [Sleep])
              ids) /\
    deliveries loop = (λ u, (u, text)) <$> ids /\
    NoDup ids /\
    count_events is_sleep loop = length ids /\
    count_events is_progress loop = (length ids / 20)%nat /\
    count_events is_write loop =
      length (filter (λ u, dropped lower deliver text u = true) ids).
Proof.
  intros ids r. subst r.
  exists (loop_events lower deliver text (length ids) 0 ids).
  split; [apply (broadcast_job_events E) |].
  split; [apply loop_events_blocks |].
  split; [apply loop_events_deliveries |].
  split; [apply NoDup_get_all_user_ids |].
  split; [apply loop_events_sleeps |].
  split; [| apply loop_events_writes].
  rewrite loop_events_progress, Nat.add_0_l, Nat.Div0.div_0_l. lia.
Qed.

(** X10: the snapshot of the next job.  After a job the active ids are
    those of its snapshot that it did not drop, so an id dropped by one job
    is not attempted by the next. *)
Theorem broadcast_next_snapshot
    (E E' : Engine) (lower : pystr -> pystr)
    (deliver deliver' : Z -> pystr -> option pystr) (text text' : pystr)
    (w : World) :
  let ids := get_all_user_ids E (users w) in
  let w1 := exec (broadcast_job E lower deliver text) w in
  let w2 := exec (broadcast_job E' lower deliver' text') w1 in
  (forall u, u ∈ get_all_user_ids E' (users w1) <->
             u ∈ ids /\ dropped lower deliver text u = false) /\
  (forall u x, u ∈ ids -> dropped lower deliver text u = true ->
               (u, x) ∉ deliveries (drop (length (trace w1)) (trace w2))).
Proof.
  intros ids w1 w2.
  assert (Hnext : forall u, u ∈ get_all_user_ids E' (users w1) <->
                            u ∈ ids /\ dropped lower deliver text u = false).
  { intros u. subst w1. rewrite elem_of_get_all_user_ids.
    rewrite broadcast_job_users. fold ids. rewrite lookup_mark_inactive_all.
    case_decide as Hgone.
    - apply list_elem_of_filter in Hgone as [Hd Hin]. split.
      + intros (a & Ha & Hact). destruct (users w !! u); [| done].
        injection Ha as <-. discriminate.
      + intros [_ Hd']. congruence.
    - split.
      + intros (a & Ha & Hact).
        assert (Hin : u ∈ ids) by (apply elem_of_get_all_user_ids; eauto).
        split; [done |].
        destruct (dropped lower deliver text u) eqn:Hd; [| done].
        destruct Hgone. by apply list_elem_of_filter.
      + intros [Hin _]. by apply elem_of_get_all_user_ids in Hin. }
  split; [done |].
  intros u x Hin Hd Hsent. subst w2.
  destruct (broadcast_job_spec E' lower deliver' text' w1)
    as (rest & Hjob & Hrest).
  unfold exec in Hsent. rewrite Hjob in Hsent. cbn [snd trace] in Hsent.
  rewrite drop_app_length in Hsent.
  rewrite !deliveries_app, Hrest in Hsent. cbn in Hsent.
  rewrite app_nil_r in Hsent.
  apply list_elem_of_fmap in Hsent as (u' & [= -> ->] & Hu').
  apply Hnext in Hu' as [_ Hd']. congruence.
Qed.

Lemma broadcast_next_snapshot_witness :
    (2, codes "two") ∉ deliveries
      (drop
         (length (trace (exec (broadcast_job pkey_engine ascii_lower
                                 (blocks [2]) (codes "one")) (world0 3))))
         (trace (exec (broadcast_job map_engine ascii_lower (blocks [])
                         (codes "two"))
                   (exec (broadcast_job pkey_engine ascii_lower
                            (blocks [2]) (codes "one")) (world0 3))))).
Proof.
  destruct (broadcast_next_snapshot pkey_engine map_engine ascii_lower
              (blocks [2]) (blocks []) (codes "one") (codes "two")
              (world0 3)) as (_ & Hskip).
  apply Hskip; [| vm_compute; reflexivity].
  apply (bool_decide_unpack _). vm_compute. reflexivity.
Defined.

(** * Further properties of the chat handlers *)

(** X11: of all the handlers only /start and /broadcast write to the
    table.  /help, a photo, /stats, /export and a mini-app payload leave it
    as it is for every caller and every input, and make no write call. *)
Theorem handlers_read_only
    (E : Engine) (ADMIN_ID : Z) (b64decode : pystr -> option (list N))
    (now from_id : Z) (parsed : option Json) (w : World) :
  Forall (λ h : M unit,
            users (exec h w) = users w /\
            count_events is_write (trace (exec h w)) =
              count_events is_write (trace w))
    [cmd_help; handle_photo;
     cmd_stats E ADMIN_ID now from_id;
     cmd_export E ADMIN_ID now from_id;
     handle_webapp_data b64decode now parsed].
Proof.
  assert (Hemit : forall (e : Event) (w0 : World),
            is_write e = false ->
            users (emit e w0).2 = users w0 /\
            count_events is_write (trace (emit e w0).2) =
              count_events is_write (trace w0)).
  { intros e w0 He. unfold emit. cbn [snd users trace]. split; [done |].
    rewrite count_events_app, count_events_one, He. lia. }
  assert (Hquery : forall A c (f : Registry -> A) (w0 : World),
            is_write (Db c) = false ->
            users (query c f w0).2 = users w0 /\
            count_events is_write (trace (query c f w0).2) =
              count_events is_write (trace w0)).
  { intros A c f w0 Hc. unfold query. cbn [snd users trace].
    split; [done |].
    rewrite count_events_app, count_events_one, Hc. lia. }
  repeat apply Forall_cons_2; [| | | | | apply Forall_nil_2];
    unfold cmd_help, handle_photo, cmd_stats, cmd_export, handle_webapp_data,
      exec.
  - by apply Hemit.
  - by apply Hemit.
  - destruct (rejected ADMIN_ID from_id); [done |]. unfold bind.
    destruct (Hquery _ DbStats (get_stats E now) w eq_refl) as [Hu Hc].
    destruct (query DbStats (get_stats E now) w) as [stats w1].
    cbn [snd] in Hu, Hc. rewrite <- Hu, <- Hc. by apply Hemit.
  - destruct (rejected ADMIN_ID from_id); [done |]. unfold bind.
    destruct (Hquery _ DbExport (export_users E) w eq_refl) as [Hu Hc].
    destruct (query DbExport (export_users E) w) as [rows w1].
    cbn [snd] in Hu, Hc. rewrite <- Hu, <- Hc. by apply Hemit.
  - destruct (webapp_image b64decode parsed) as [[bytes |] |];
      [by apply Hemit | done | by apply Hemit].
Qed.

(** X12: /start from any sender.  The handler makes one upsert and one
    answer; afterwards the sender is in the list of active ids with the
    handle and name of the message, the other rows are as they were, and
    the table has grown by one row exactly when the sender was unknown. *)
Theorem cmd_start_registers
    (E : Engine) (now from_id : Z) (uname fname : option pystr) (w : World) :
  let w' := exec (cmd_start now from_id uname fname) w in
  trace w' = trace w ++ [Db (DbUpsert from_id); Answer StartMenu] /\
  from_id ∈ get_all_user_ids E (users w') /\
  (exists j, users w' !! from_id = Some (mkAccount uname fname j true) /\
             j = match users w !! from_id with
                 | Some a => joined a | None => now end) /\
  (forall k, k ≠ from_id -> users w' !! k = users w !! k) /\
  size (users w') =
    match users w !! from_id with
    | Some _ => size (users w)
    | None => S (size (users w))
    end.
Proof.
  intros w'. subst w'. unfold cmd_start, exec, bind, update, emit.
  cbn [fst snd users trace].
  split; [by rewrite <- app_assoc |].
  split; [| split; [| split]].
  - apply elem_of_get_all_user_ids. rewrite lookup_add_user. eauto.
  - rewrite lookup_add_user. eauto.
  - intros k Hk. by apply lookup_add_user_ne.
  - unfold add_user. destruct (users w !! from_id) as [a |] eqn:Hu.
    + apply map_size_insert_Some. by eexists.
    + by apply map_size_insert_None.
Qed.

(** X21: /export and /stats from the operator, on one table.  The exported
    document holds every row of the table once, active or not, newest
    first; the count of its caption is the number of its rows, and it is
    the total that /stats reports. *)
Theorem export_matches_stats
    (E : Engine) (ADMIN_ID now : Z) (w : World) :
  exists rows s,
    trace (exec (cmd_export E ADMIN_ID now ADMIN_ID) w) =
      trace w ++
      [Db DbExport;
       AnswerDocument (UsersCsv now rows) (ExportCaption (length rows))] /\
    trace (exec (cmd_stats E ADMIN_ID now ADMIN_ID) w) =
      trace w ++ [Db DbStats; Answer (StatsText s)] /\
    rows ≡ₚ map_to_list (users w) /\
    StronglySorted joined_desc rows /\
    length rows = total s.
Proof.
  exists (export_users E (users w)), (get_stats E now (users w)).
  unfold cmd_export, cmd_stats, exec. rewrite rejected_operator.
  unfold bind, query, emit. cbn [fst snd users trace].
  rewrite <- !app_assoc.
  split; [done |]. split; [done |].
  split; [apply export_users_perm |].
  split; [apply export_users_sorted |].
  unfold get_stats. cbn [total].
  by rewrite length_scan, export_users_perm, length_map_to_list.
Qed.

(** * Properties of the string operations *)

Lemma lstrip_spec (s : pystr) :
  exists a, s = a ++ lstrip s /\
            Forall (λ c, is_space c = true) a /\
            (forall c, head (lstrip s) = Some c -> is_space c = false).
Proof.
  induction s as [| c s (a & Hs & Ha & Hhead)].
  - exists []. cbn. repeat split; [constructor | done].
  - cbn [lstrip]. destruct (is_space c) eqn:Hc.
    + exists (c :: a). cbn. rewrite <- Hs. repeat split; [| done].
      by constructor.
    + exists []. cbn. repeat split; [constructor |]. by intros c' [= <-].
Qed.

(** X13: [strip] takes whitespace, and only whitespace, off both ends: the
    string is its stripped form between two runs of whitespace, and what is
    left neither starts nor ends with whitespace. *)
Theorem strip_spec (s : pystr) :
  exists a b,
    s = a ++ strip s ++ b /\
    Forall (λ c, is_space c = true) a /\
    Forall (λ c, is_space c = true) b /\
    (forall c, head (strip s) = Some c -> is_space c = false) /\
    (forall c, last (strip s) = Some c -> is_space c = false).
Proof.
  destruct (lstrip_spec s) as (a & Hs & Ha & Hhead).
  destruct (lstrip_spec (rev (lstrip s))) as (b & Ht & Hb & Hlast).
  unfold strip. set (t := lstrip s) in *. set (m := lstrip (rev t)) in *.
  assert (Htm : t = rev m ++ rev b).
  { rewrite <- rev_app_distr, <- Ht. by rewrite rev_involutive. }
  exists a, (rev b). split; [by rewrite <- Htm |].
  split; [done |]. split.
  { by apply List.Forall_rev. }
  split.
  - intros c Hc. apply Hhead. rewrite Htm.
    destruct (rev m); [done |]. done.
  - intros c Hc. apply Hlast.
    destruct m as [| c' m']; [done |].
    cbn [rev] in Hc. rewrite last_snoc in Hc. done.
Qed.

Lemma lstrip_spaces (s : pystr) :
  Forall (λ c, is_space c = true) s -> lstrip s = [].
Proof.
  induction 1 as [| c s Hc _ IH]; [done |]. cbn. by rewrite Hc.
Qed.

Lemma remove_from_absent (p s : pystr) :
  contains p s = false -> remove_from p 0 s = s.
Proof.
  induction s as [| c s IH]; intros Hs; [done |].
  cbn [contains] in Hs. apply orb_false_iff in Hs as [Hstart Hrest].
  cbn [remove_from]. rewrite Hstart. by rewrite IH.
Qed.

Lemma remove_from_skip (p a s : pystr) :
  remove_from p (length a) (a ++ s) = remove_from p 0 s.
Proof. induction a as [| c a IH]; [done |]. cbn. apply IH. Qed.

Lemma startswith_app (p s : pystr) : startswith p (p ++ s) = true.
Proof.
  induction p as [| c p IH]; [done |]. cbn. by rewrite N.eqb_refl.
Qed.

Lemma remove_from_prefix (c : N) (p s : pystr) :
  remove_from (c :: p) 0 ((c :: p) ++ s) = remove_from (c :: p) 0 s.
Proof.
  cbn [app remove_from].
  change (c :: p ++ s) with ((c :: p) ++ s). rewrite startswith_app.
  replace (length (c :: p) - 1)%nat with (length p) by (cbn [length]; lia).
  apply remove_from_skip.
Qed.

(** X14: the text of a broadcast.  For a message that is the command word
    followed by a body in which the command word does not occur again, the
    text is the body with the whitespace at its two ends removed; when the
    body is all whitespace, the text is empty. *)
Theorem broadcast_text_is_trimmed_body (body : pystr) :
  (contains (codes "/broadcast") body = false ->
   broadcast_text (codes "/broadcast" ++ body) = strip body) /\
  (Forall (λ c, is_space c = true) body ->
   broadcast_text (codes "/broadcast" ++ body) = []).
Proof.
  assert (Htrim : contains (codes "/broadcast") body = false ->
                  broadcast_text (codes "/broadcast" ++ body) = strip body).
  { intros Hbody. unfold broadcast_text, replace_empty.
    change (codes "/broadcast") with (47%N :: codes "broadcast").
    rewrite remove_from_prefix.
    change (47%N :: codes "broadcast") with (codes "/broadcast").
    by rewrite remove_from_absent. }
  split; [done |].
  intros Hspaces. rewrite Htrim.
  - unfold strip. by rewrite (lstrip_spaces body Hspaces).
  - clear Htrim. induction Hspaces as [| c s Hc _ IH]; [done |].
    cbn [contains]. rewrite IH, orb_false_r.
    change (codes "/broadcast") with (47%N :: codes "broadcast").
    cbn [startswith]. destruct (N.eqb_spec 47 c) as [<- | Hne]; [| done].
    discriminate.
Qed.

Lemma broadcast_text_is_trimmed_body_witness :
  broadcast_text (codes "/broadcast" ++ codes "  sale today ") =
    strip (codes "  sale today ") /\
  broadcast_text (codes "/broadcast" ++ [32; 9; 10]%N) = [].
Proof.
  destruct (broadcast_text_is_trimmed_body (codes "  sale today "))
    as [Htrim _].
  destruct (broadcast_text_is_trimmed_body [32; 9; 10]%N) as [_ Hblank].
  split.
  - apply Htrim. reflexivity.
  - apply Hblank. repeat constructor.
Defined.

Lemma split_on_cons (sep : N) (s : pystr) :
  exists piece rest, split_on sep s = piece :: rest.
Proof.
  destruct s as [| c s]; cbn; [by eexists _, _ |].
  destruct (c =? sep)%N; [by eexists _, _ |].
  destruct (split_on sep s); by eexists _, _.
Qed.

Lemma split_on_absent (sep : N) (s : pystr) :
  sep ∉ s -> split_on sep s = [s].
Proof.
  induction s as [| c s IH]; intros Hs; [done |].
  apply not_elem_of_cons in Hs as [Hc Hs]. cbn.
  destruct (N.eqb_spec c sep) as [-> | _]; [done |]. by rewrite IH.
Qed.

Lemma split_on_app (sep : N) (a b : pystr) :
  sep ∉ a -> split_on sep (a ++ sep :: b) = a :: split_on sep b.
Proof.
  induction a as [| c a IH]; intros Ha.
  - cbn. by rewrite N.eqb_refl.
  - apply not_elem_of_cons in Ha as [Hc Ha]. cbn.
    destruct (N.eqb_spec c sep) as [-> | _]; [done |]. by rewrite IH.
Qed.

(** [s.split(',')[1]]: the piece between the first comma and the next one,
    or the end; there is none in a string without a comma. *)
Lemma split_on_second_piece (a b tail : pystr) :
  44%N ∉ a -> 44%N ∉ b -> (tail = [] \/ exists t, tail = 44%N :: t) ->
  split_on 44 (a ++ 44%N :: b ++ tail) !! 1%nat = Some b.
Proof.
  intros Ha Hb Htail. rewrite split_on_app by done.
  destruct Htail as [-> | [t ->]].
  - by rewrite app_nil_r, split_on_absent.
  - by rewrite split_on_app.
Qed.

Lemma split_on_no_second_piece (s : pystr) :
  44%N ∉ s -> split_on 44 s !! 1%nat = None.
Proof. intros Hs. by rewrite split_on_absent. Qed.

(** X15: splitting and joining.  Joining the pieces of a split with the
    separator gives the string back; no piece holds the separator, and there
    is one piece more than there are separators in the string. *)
Theorem split_on_join (sep : N) (s : pystr) :
  join_with sep (split_on sep s) = s /\
  Forall (λ piece, sep ∉ piece) (split_on sep s) /\
  length (split_on sep s) = S (length (filter (λ c, c = sep) (s : list N))).
Proof.
  unfold pystr in s. induction s as [| c s (Hjoin & Hfree & Hlen)].
  - split; [done |]. split; [| done].
    constructor; [apply not_elem_of_nil | constructor].
  - cbn [split_on]. rewrite filter_cons.
    destruct (split_on_cons sep s) as (piece & rest & Hsplit).
    rewrite Hsplit in *.
    destruct (N.eqb_spec c sep) as [-> | Hne].
    + rewrite decide_True by done. split; [| split].
      * change (join_with sep ([] :: piece :: rest))
          with (sep :: join_with sep (piece :: rest)).
        by rewrite Hjoin.
      * constructor; [apply not_elem_of_nil | done].
      * cbn. by rewrite <- Hlen.
    + rewrite decide_False by done. split; [| split].
      * rewrite <- Hjoin. by destruct rest.
      * apply Forall_cons in Hfree as [Hpiece Hrest].
        constructor; [| done]. by apply not_elem_of_cons.
      * done.
Qed.

(** * Further properties of the mini-app payloads *)

(** X16: a [send_result] whose image decodes.  The handler sends one
    document with the decoded bytes and nothing else.  What is decoded is,
    for a data URI, the piece between its first comma and the next one, what
    follows a second comma being dropped (the whole rest when there is no
    other comma); for any other string, the whole string; and the empty
    string when the payload has no image. *)
Theorem webapp_sends_decoded_image
    (b64decode : pystr -> option (list N)) (now : Z)
    (items : list (pystr * Json)) (w : World) :
  dict_get (codes "action") items = Some (JStr (codes "send_result")) ->
  let run := handle_webapp_data b64decode now (Some (JObj items)) in
  let sent bytes :=
    (tt, mkWorld (users w)
           (trace w ++
            [AnswerDocument (UpscaledPng now bytes) UpscaledCaption])) in
  (forall a b tail bytes,
     dict_get (codes "image") items = Some (JStr (a ++ 44%N :: b ++ tail)) ->
     startswith (codes "data:image") (a ++ 44%N :: b ++ tail) = true ->
     44%N ∉ a -> 44%N ∉ b -> (tail = [] \/ exists t, tail = 44%N :: t) ->
     b64decode b = Some bytes ->
     run w = sent bytes) /\
  (forall s bytes,
     dict_get (codes "image") items = Some (JStr s) ->
     startswith (codes "data:image") s = false ->
     b64decode s = Some bytes ->
     run w = sent bytes) /\
  (forall bytes,
     dict_get (codes "image") items = None ->
     b64decode [] = Some bytes ->
     run w = sent bytes).
Proof.
  intros Haction run sent. subst run sent.
  unfold handle_webapp_data, webapp_image. cbn [mbind option_bind].
  rewrite Haction.
  assert (Heq : pystr_eqb (codes "send_result") (codes "send_result") = true)
    by reflexivity.
  rewrite Heq. clear Heq.
  split; [| split].
  - intros a b tail bytes Himage Hprefix Ha Hb Htail Hdecode.
    rewrite Himage. cbn [mbind option_bind]. rewrite Hprefix.
    rewrite split_on_second_piece by done.
    cbn. by rewrite Hdecode.
  - intros s bytes Himage Hprefix Hdecode.
    rewrite Himage. cbn [mbind option_bind]. rewrite Hprefix.
    cbn. by rewrite Hdecode.
  - intros bytes Himage Hdecode.
    rewrite Himage. cbn [mbind option_bind].
    change (startswith (codes "data:image") []) with false.
    cbn. by rewrite Hdecode.
Qed.

Lemma webapp_sends_decoded_image_witness :
  handle_webapp_data stub_b64decode 100
    (Some (JObj [(codes "action", JStr (codes "send_result"));
                 (codes "image",
                  JStr (codes "data:image/png;base64" ++
                        44%N :: codes "AAAA" ++ codes ",BBBBBBBB"))]))
    (world0 1) =
  (tt, mkWorld (synthetic 1)
         [AnswerDocument (UpscaledPng 100 [0%N]) UpscaledCaption]).
Proof.
  destruct (webapp_sends_decoded_image stub_b64decode 100
              [(codes "action", JStr (codes "send_result"));
               (codes "image",
                JStr (codes "data:image/png;base64" ++
                      44%N :: codes "AAAA" ++ codes ",BBBBBBBB"))]
              (world0 1) eq_refl) as (Huri & _ & _).
  apply (Huri (codes "data:image/png;base64") (codes "AAAA")
           (codes ",BBBBBBBB") [0%N]); try reflexivity.
  - apply (bool_decide_unpack _). vm_compute. reflexivity.
  - apply (bool_decide_unpack _). vm_compute. reflexivity.
  - right. by exists (codes "BBBBBBBB").
Defined.

(** * Further properties of the upscale gateway *)

Ltac eval_fields :=
  repeat match goal with
  | |- context [field ?name ?b] =>
      let v := eval vm_compute in (field name b) in
      change (field name b) with v
  end.

Ltac outcome_facts :=
  repeat match goal with
  | |- _ /\ _ => split
  | |- _ <-> _ => split
  | |- _ -> _ => intros ?
  | H : is_Some None |- _ => by apply is_Some_None in H
  end;
  try lia; try done; try discriminate; try (by eexists); eauto.

(** X17: the outcomes of POST /upscale, for every request and every
    behaviour of the provider.  The status is 200, 400 or 500.  A response
    carries an image exactly when its status is 200, and then it is marked
    a success; it carries an [error] field exactly when its status is not
    200.  The provider is not called for a 400, it is posted to at most
    once, and the result is fetched at most once and only after the post. *)
Theorem upscale_outcomes
    (post : list N -> pystr + list (pystr * Json))
    (fetch : Json -> pystr + list N) (b64encode : list N -> pystr)
    (request : pystr + list Part) :
  let r := (handle_upscale post fetch b64encode request).1 in
  let calls := (handle_upscale post fetch b64encode request).2 in
  (status r = 200 \/ status r = 400 \/ status r = 500) /\
  (status r = 200 <-> is_Some (field "image_base64" (body r))) /\
  (status r = 200 <-> field "success" (body r) = Some (JBool true)) /\
  (status r ≠ 200 <-> is_Some (field "error" (body r))) /\
  (status r = 400 -> calls = []) /\
  (calls = [] \/ (exists d, calls = [PostImage d]) \/
   (exists d url, calls = [PostImage d; GetOutput url])).
Proof.
  unfold handle_upscale.
  destruct request as [msg | parts].
  { cbn [fst snd status body error_response]. eval_fields. outcome_facts. }
  destruct (read_image parts) as [[| c d] |].
  { cbn [fst snd status body error_response]. eval_fields. outcome_facts. }
  2:{ cbn [fst snd status body error_response]. eval_fields. outcome_facts. }
  destruct (post (c :: d)) as [msg | result].
  { cbn [fst snd status body error_response]. eval_fields. outcome_facts. }
  destruct (dict_get (codes "output_url") result) as [url |].
  2:{ cbn [fst snd status body error_response]. eval_fields. outcome_facts. }
  destruct (fetch url) as [msg | img_bytes];
    cbn [fst snd status body error_response]; eval_fields; outcome_facts.
Qed.

(** X18: of several parts named [image] the last one is the image, and an
    empty image counts as none: the answer is the 400 of a missing field,
    without a call to the provider, also when an earlier part had data. *)
Theorem read_image_last_part_wins
    (post : list N -> pystr + list (pystr * Json))
    (fetch : Json -> pystr + list N) (b64encode : list N -> pystr)
    (before after : list Part) (d : list N) :
  Forall (λ p, part_name p ≠ Some (codes "image")) after ->
  let parts := before ++ mkPart (Some (codes "image")) d :: after in
  read_image parts = Some d /\
  (d = [] ->
   handle_upscale post fetch b64encode (inr parts) =
     (error_response (codes "No image provided") 400, [])).
Proof.
  intros Hafter parts.
  assert (Hread : read_image parts = Some d).
  { subst parts. unfold read_image. rewrite foldl_app. cbn [foldl part_name].
    assert (Heq : pystr_eqb (codes "image") (codes "image") = true)
      by reflexivity.
    rewrite Heq. cbn [part_data]. clear Heq.
    generalize (Some d). clear before.
    induction Hafter as [| p after Hp _ IH]; intros acc; [done |].
    cbn [foldl]. rewrite IH.
    destruct (part_name p) as [name |]; [| done].
    unfold pystr_eqb. case_bool_decide; [congruence | done]. }
  split; [done |].
  intros ->. unfold handle_upscale. by rewrite Hread.
Qed.

Lemma read_image_last_part_wins_witness :
  let parts := [mkPart (Some (codes "image")) [1; 2]%N;
                mkPart (Some (codes "image")) [];
                mkPart (Some (codes "note")) [7]%N] in
  read_image parts = Some [] /\
  handle_upscale stub_post stub_fetch stub_b64encode (inr parts) =
    (error_response (codes "No image provided") 400, []).
Proof.
  destruct (read_image_last_part_wins stub_post stub_fetch stub_b64encode
              [mkPart (Some (codes "image")) [1; 2]%N]
              [mkPart (Some (codes "note")) [7]%N] [])
    as [Hread Hempty].
  - repeat constructor. vm_compute. discriminate.
  - split; [exact Hread | by apply Hempty].
Defined.

(** A [send_result] with a data URI of one comma, as the gateway builds
    them. *)
Lemma handle_webapp_data_uri
    (b64decode : pystr -> option (list N)) (now : Z)
    (a b : pystr) (bytes : list N) (w : World) :
  startswith (codes "data:image") (a ++ 44%N :: b) = true ->
  44%N ∉ a -> 44%N ∉ b -> b64decode b = Some bytes ->
  handle_webapp_data b64decode now
    (Some (JObj [(codes "action", JStr (codes "send_result"));
                 (codes "image", JStr (a ++ 44%N :: b))])) w =
  (tt, mkWorld (users w)
         (trace w ++ [AnswerDocument (UpscaledPng now bytes) UpscaledCaption])).
Proof.
  intros Hprefix Ha Hb Hdecode.
  unfold handle_webapp_data, webapp_image. cbn [mbind option_bind].
  change (dict_get (codes "action") _)
    with (Some (JStr (codes "send_result"))).
  change (pystr_eqb (codes "send_result") (codes "send_result")) with true.
  change (dict_get (codes "image") _) with (Some (JStr (a ++ 44%N :: b))).
  cbn [mbind option_bind]. rewrite Hprefix.
  rewrite split_on_app, (split_on_absent _ b) by done.
  cbn. by rewrite Hdecode.
Qed.

(** X19: from the gateway back to the chat.  When the provider returns an
    output reference and the resource behind it is fetched, the response is
    a 200 with that reference, and its [image_base64], sent back by the
    mini-app as the image of a [send_result], makes the router send a
    document with exactly the bytes fetched from the provider.  The encoder
    and the decoder are assumed to be inverse on these bytes, and the
    encoding to hold no comma. *)
Theorem upscale_result_decodes_back
    (post : list N -> pystr + list (pystr * Json))
    (fetch : Json -> pystr + list N) (b64encode : list N -> pystr)
    (b64decode : pystr -> option (list N)) (now : Z)
    (parts : list Part) (c : N) (d : list N)
    (result : list (pystr * Json)) (url : Json) (bytes : list N)
    (w : World) :
  read_image parts = Some (c :: d) ->
  post (c :: d) = inr result ->
  dict_get (codes "output_url") result = Some url ->
  fetch url = inr bytes ->
  44%N ∉ b64encode bytes ->
  b64decode (b64encode bytes) = Some bytes ->
  let r := (handle_upscale post fetch b64encode (inr parts)).1 in
  status r = 200 /\
  field "output_url" (body r) = Some url /\
  exists image,
    field "image_base64" (body r) = Some (JStr image) /\
    handle_webapp_data b64decode now
      (Some (JObj [(codes "action", JStr (codes "send_result"));
                   (codes "image", JStr image)])) w =
    (tt, mkWorld (users w)
           (trace w ++
            [AnswerDocument (UpscaledPng now bytes) UpscaledCaption])).
Proof.
  intros Hread Hpost Hurl Hfetch Hcomma Hinverse r. subst r.
  unfold handle_upscale. rewrite Hread, Hpost, Hurl, Hfetch.
  cbn [fst status body].
  split; [done |]. split; [reflexivity |].
  exists (codes "data:image/png;base64" ++ 44%N :: b64encode bytes).
  split; [reflexivity |].
  apply handle_webapp_data_uri; [reflexivity | | done | done].
  apply (bool_decide_unpack _). vm_compute. reflexivity.
Qed.

Lemma upscale_result_decodes_back_witness :
  exists image,
    field "image_base64"
      (body (handle_upscale stub_post (λ _, inr [0; 0]%N) stub_b64encode
               (inr [mkPart (Some (codes "image")) [1; 2; 3]%N])).1) =
      Some (JStr image) /\
    handle_webapp_data stub_b64decode 100
      (Some (JObj [(codes "action", JStr (codes "send_result"));
                   (codes "image", JStr image)])) (world0 1) =
    (tt, mkWorld (synthetic 1)
           [AnswerDocument (UpscaledPng 100 [0; 0]%N) UpscaledCaption]).
Proof.
  destruct (upscale_result_decodes_back stub_post (λ _, inr [0; 0]%N)
              stub_b64encode stub_b64decode 100
              [mkPart (Some (codes "image")) [1; 2; 3]%N] 1%N [2; 3]%N
              [(codes "output_url", JStr (codes "https://provider/out.png"))]
              (JStr (codes "https://provider/out.png")) [0; 0]%N (world0 1))
    as (_ & _ & Himage); try reflexivity.
  - apply (bool_decide_unpack _). vm_compute. reflexivity.
  - exact Himage.
Defined.

(** * The HTTP surface *)

Lemma same_header_true (a b : pystr) :
  same_header a b = true <-> ascii_lower a = ascii_lower b.
Proof. unfold same_header, pystr_eqb. apply bool_decide_eq_true. Qed.

Lemma same_header_false (a b : pystr) :
  same_header a b = false <-> ascii_lower a ≠ ascii_lower b.
Proof. unfold same_header, pystr_eqb. apply bool_decide_eq_false. Qed.

Lemma get_header_app (name : pystr) (hs1 hs2 : list (pystr * pystr)) :
  get_header name (hs1 ++ hs2) =
    match get_header name hs1 with
    | Some v => Some v
    | None => get_header name hs2
    end.
Proof.
  induction hs1 as [| [k v] hs1 IH]; [done |]. cbn.
  by destruct (same_header name k).
Qed.

Lemma get_header_set_eq (name value : pystr) (hs : list (pystr * pystr)) :
  get_header name (set_header name value hs) = Some value.
Proof.
  unfold set_header. rewrite get_header_app.
  assert (Hnone : get_header name
                    (filter (λ kv, same_header name kv.1 = false) hs) = None).
  { induction hs as [| [k v] hs IH]; [done |].
    rewrite filter_cons. case_decide as Hk; [| done].
    cbn in *. by rewrite Hk. }
  rewrite Hnone. cbn.
  by rewrite (proj2 (same_header_true name name)).
Qed.

Lemma get_header_set_ne (name other value : pystr)
    (hs : list (pystr * pystr)) :
  same_header name other = false ->
  get_header name (set_header other value hs) = get_header name hs.
Proof.
  intros Hne. unfold set_header. rewrite get_header_app. cbn. rewrite Hne.
  assert (Hkeep : get_header name
                    (filter (λ kv, same_header other kv.1 = false) hs) =
                  get_header name hs).
  { induction hs as [| [k v] hs IH]; [done |].
    rewrite filter_cons. cbn [fst get_header].
    destruct (same_header name k) eqn:Hk.
    - rewrite decide_True; [cbn; by rewrite Hk |].
      apply same_header_false. apply same_header_true in Hk.
      apply same_header_false in Hne. congruence.
    - case_decide; [cbn; by rewrite Hk |]. done. }
  rewrite Hkeep. by destruct (get_header name hs).
Qed.

(** X20: every response that leaves through the middleware, on each of the
    three routes and whatever its status, carries the three headers of
    lines 219-221 with the same values, whatever headers it had before.
    The preflight is answered with a 200 without body and without a call to
    the provider; on the other routes the status, the body and the calls to
    the provider are those of the route's handler. *)
Theorem middleware_headers_on_every_response
    (json_headers : list (pystr * pystr))
    (post : list N -> pystr + list (pystr * Json))
    (fetch : Json -> pystr + list N) (b64encode : list N -> pystr)
    (route : Route) :
  let r := (serve json_headers post fetch b64encode route).1 in
  let calls := (serve json_headers post fetch b64encode route).2 in
  get_header allow_origin (sv_headers r) = Some (codes "*") /\
  get_header allow_methods (sv_headers r) =
    Some (codes "POST, GET, OPTIONS") /\
  get_header allow_headers (sv_headers r) = Some (codes "Content-Type") /\
  match route with
  | OptionsUpscale =>
      sv_status r = 200 /\ sv_body r = None /\ calls = []
  | GetHealth =>
      sv_status r = 200 /\
      sv_body r = Some (JObj [(codes "status", JStr (codes "ok"))]) /\
      calls = []
  | PostUpscale request =>
      let h := handle_upscale post fetch b64encode request in
      sv_status r = status h.1 /\ sv_body r = Some (body h.1) /\
      calls = h.2
  end.
Proof.
  assert (Hset : forall hs,
            let hs' := set_header allow_headers (codes "Content-Type")
                         (set_header allow_methods (codes "POST, GET, OPTIONS")
                            (set_header allow_origin (codes "*") hs)) in
            get_header allow_origin hs' = Some (codes "*") /\
            get_header allow_methods hs' = Some (codes "POST, GET, OPTIONS") /\
            get_header allow_headers hs' = Some (codes "Content-Type")).
  { intros hs hs'. subst hs'. split; [| split].
    - rewrite !get_header_set_ne by reflexivity. apply get_header_set_eq.
    - rewrite get_header_set_ne by reflexivity. apply get_header_set_eq.
    - apply get_header_set_eq. }
  destruct route as [request | |]; unfold serve, cors_middleware.
  - change (pystr_eqb (codes "POST") (codes "OPTIONS")) with false.
    destruct (handle_upscale post fetch b64encode request) as [h calls].
    cbn [fst snd sv_status sv_headers sv_body json_response].
    destruct (Hset json_headers) as (H1 & H2 & H3). done.
  - change (pystr_eqb (codes "GET") (codes "OPTIONS")) with false.
    cbn [fst snd sv_status sv_headers sv_body json_response handle_health
           status body].
    destruct (Hset json_headers) as (H1 & H2 & H3). done.
  - change (pystr_eqb (codes "OPTIONS") (codes "OPTIONS")) with true.
    cbn [fst snd]. repeat split.
Qed.

(** * Failures of a mini-app payload *)

(** C4 (amended): no payload changes the table.  The handler answers with
    the error text, and does nothing else, whenever handling the payload
    raises: the text is not JSON; the JSON is not an object; or, for a
    [send_result], the image is not a string, is a data URI without a
    comma, or the part to decode is rejected by the base64 decoder, that
    part being the piece between the first comma and the next for a data
    URI, the whole string for any other string, and the empty string when
    there is no image.  A payload whose action is missing or is not
    [send_result] is ignored: no response, no change. *)
Theorem webapp_failure_handling
    (b64decode : pystr -> option (list N)) (now : Z)
    (parsed : option Json) (w : World) :
  let run := handle_webapp_data b64decode now parsed in
  let answered := (tt, mkWorld (users w) (trace w ++ [Answer WebappError])) in
  users (exec run w) = users w /\
  (parsed = None -> run w = answered) /\
  (forall j, parsed = Some j -> (forall items, j ≠ JObj items) ->
             run w = answered) /\
  (forall items,
     parsed = Some (JObj items) ->
     dict_get (codes "action") items ≠ Some (JStr (codes "send_result")) ->
     run w = (tt, w)) /\
  (forall items,
     parsed = Some (JObj items) ->
     dict_get (codes "action") items = Some (JStr (codes "send_result")) ->
     (forall j, dict_get (codes "image") items = Some j ->
                (forall s, j ≠ JStr s) -> run w = answered) /\
     (forall s,
        dict_get (codes "image") items = Some (JStr s) ->
        startswith (codes "data:image") s = true ->
        44%N ∉ s ->
        run w = answered) /\
     (forall a b tail,
        dict_get (codes "image") items = Some (JStr (a ++ 44%N :: b ++ tail)) ->
        startswith (codes "data:image") (a ++ 44%N :: b ++ tail) = true ->
        44%N ∉ a -> 44%N ∉ b -> (tail = [] \/ exists t, tail = 44%N :: t) ->
        b64decode b = None ->
        run w = answered) /\
     (forall s,
        dict_get (codes "image") items = Some (JStr s) ->
        startswith (codes "data:image") s = false ->
        b64decode s = None ->
        run w = answered) /\
     (dict_get (codes "image") items = None ->
      b64decode [] = None ->
      run w = answered)).
Proof.
  intros run answered.
  split; [apply handle_webapp_data_users |].
  split; [by intros -> |].
  split.
  { intros j -> Hj. destruct j; try reflexivity. by destruct (Hj items). }
  split.
  { intros items -> Haction. subst run. unfold handle_webapp_data.
    by rewrite webapp_image_not_send_result. }
  intros items -> Haction. subst run answered.
  unfold handle_webapp_data, webapp_image. cbn [mbind option_bind].
  rewrite Haction.
  assert (Heq : pystr_eqb (codes "send_result") (codes "send_result") = true)
    by reflexivity.
  rewrite Heq. clear Heq.
  split; [| split; [| split; [| split]]].
  - intros j Himage Hj. rewrite Himage.
    destruct j; try reflexivity. by destruct (Hj s).
  - intros s Himage Hprefix Hcomma.
    rewrite Himage. cbn [mbind option_bind]. rewrite Hprefix.
    by rewrite split_on_no_second_piece.
  - intros a b tail Himage Hprefix Ha Hb Htail Hdecode.
    rewrite Himage. cbn [mbind option_bind]. rewrite Hprefix.
    rewrite split_on_second_piece by done.
    cbn. by rewrite Hdecode.
  - intros s Himage Hprefix Hdecode.
    rewrite Himage. cbn [mbind option_bind]. rewrite Hprefix.
    cbn. by rewrite Hdecode.
  - intros Himage Hdecode.
    rewrite Himage. cbn [mbind option_bind].
    change (startswith (codes "data:image") []) with false.
    cbn. by rewrite Hdecode.
Qed.

Lemma webapp_failure_handling_witness :
  let answered := (tt, mkWorld (synthetic 2) [Answer WebappError]) in
  handle_webapp_data stub_b64decode 100 None (world0 2) = answered /\
  handle_webapp_data stub_b64decode 100 (Some (JArr [])) (world0 2) =
    answered /\
  handle_webapp_data stub_b64decode 100
    (Some (JObj [(codes "image", JStr (codes "AAAA"))])) (world0 2) =
    (tt, world0 2) /\
  handle_webapp_data stub_b64decode 100
    (Some (JObj [(codes "action", JStr (codes "send_result"));
                 (codes "image", JInt 5)])) (world0 2) = answered /\
  handle_webapp_data stub_b64decode 100
    (Some (JObj [(codes "action", JStr (codes "send_result"));
                 (codes "image", JStr (codes "data:image/png"))]))
    (world0 2) = answered /\
  handle_webapp_data stub_b64decode 100
    (Some (JObj [(codes "action", JStr (codes "send_result"));
                 (codes "image",
                  JStr (codes "data:image/png;base64" ++
                        44%N :: codes "abc" ++ []))]))
    (world0 2) = answered /\
  handle_webapp_data stub_b64decode 100
    (Some (JObj [(codes "action", JStr (codes "send_result"));
                 (codes "image", JStr (codes "abc"))])) (world0 2) =
    answered.
Proof.
  intros answered.
  split; [| split; [| split; [| split; [| split; [| split]]]]].
  - destruct (webapp_failure_handling stub_b64decode 100 None (world0 2))
      as (_ & H & _).
    exact (H eq_refl).
  - destruct (webapp_failure_handling stub_b64decode 100 (Some (JArr []))
                (world0 2)) as (_ & _ & H & _).
    apply (H (JArr [])); [reflexivity | discriminate].
  - destruct (webapp_failure_handling stub_b64decode 100
                (Some (JObj [(codes "image", JStr (codes "AAAA"))]))
                (world0 2)) as (_ & _ & _ & H & _).
    eapply H; [reflexivity | vm_compute; discriminate].
  - destruct (webapp_failure_handling stub_b64decode 100
                (Some (JObj [(codes "action", JStr (codes "send_result"));
                             (codes "image", JInt 5)]))
                (world0 2)) as (_ & _ & _ & _ & H).
    destruct (H _ eq_refl eq_refl) as (Hnot & _).
    apply (Hnot (JInt 5)); [reflexivity | discriminate].
  - destruct (webapp_failure_handling stub_b64decode 100
                (Some (JObj [(codes "action", JStr (codes "send_result"));
                             (codes "image", JStr (codes "data:image/png"))]))
                (world0 2)) as (_ & _ & _ & _ & H).
    destruct (H _ eq_refl eq_refl) as (_ & Hbare & _).
    apply (Hbare (codes "data:image/png")); [reflexivity | reflexivity |].
    apply (bool_decide_unpack _). vm_compute. reflexivity.
  - destruct (webapp_failure_handling stub_b64decode 100
                (Some (JObj [(codes "action", JStr (codes "send_result"));
                             (codes "image",
                              JStr (codes "data:image/png;base64" ++
                                    44%N :: codes "abc" ++ []))]))
                (world0 2)) as (_ & _ & _ & _ & H).
    destruct (H _ eq_refl eq_refl) as (_ & _ & Huri & _).
    apply (Huri (codes "data:image/png;base64") (codes "abc") []);
      try reflexivity; try (by left);
      apply (bool_decide_unpack _); vm_compute; reflexivity.
  - destruct (webapp_failure_handling stub_b64decode 100
                (Some (JObj [(codes "action", JStr (codes "send_result"));
                             (codes "image", JStr (codes "abc"))]))
                (world0 2)) as (_ & _ & _ & _ & H).
    destruct (H _ eq_refl eq_refl) as (_ & _ & _ & Hplain & _).
    apply (Hplain (codes "abc")); reflexivity.
Defined.

(** * The text of a broadcast command *)

Lemma lstrip_no_space (s : pystr) :
  Forall (λ c, is_space c = false) s -> lstrip s = s.
Proof. destruct 1 as [| c s Hc _]; [done |]. cbn. by rewrite Hc. Qed.

Lemma strip_no_space (s : pystr) :
  Forall (λ c, is_space c = false) s -> strip s = s.
Proof.
  intros Hs. unfold strip. rewrite (lstrip_no_space s Hs).
  rewrite lstrip_no_space by (by apply List.Forall_rev).
  apply rev_involutive.
Qed.

(** What line 323 leaves of a command word with a mention and no argument:
    the mention. *)
Lemma broadcast_text_mention (name : pystr) :
  Forall (λ c, is_space c = false) name ->
  contains (codes "/broadcast") (64%N :: name) = false ->
  broadcast_text (codes "/broadcast" ++ 64%N :: name) = 64%N :: name.
Proof.
  intros Hname Habsent. unfold broadcast_text, replace_empty.
  change (codes "/broadcast") with (47%N :: codes "broadcast").
  rewrite remove_from_prefix.
  change (47%N :: codes "broadcast") with (codes "/broadcast").
  rewrite remove_from_absent by done.
  apply strip_no_space. by constructor.
Qed.

Lemma loop_events_no_answer lower deliver text n ids (t : Text) :
  forall i, Answer t ∉ loop_events lower deliver text n i ids.
Proof.
  induction ids as [| u ids IH]; intros i; [apply not_elem_of_nil |].
  cbn [loop_events]. rewrite !elem_of_app.
  intros [Hin | [Hin | [Hin | [Hin | Hin]]]]; [| | | | by apply (IH (S i))].
  - apply elem_of_cons in Hin as [Hin | Hin]; [discriminate |].
    by apply elem_of_nil in Hin.
  - destruct (dropped lower deliver text u);
      [| by apply elem_of_nil in Hin].
    apply elem_of_cons in Hin as [Hin | Hin]; [discriminate |].
    by apply elem_of_nil in Hin.
  - destruct ((i + 1) mod 20 =? 0)%nat; [| by apply elem_of_nil in Hin].
    apply elem_of_cons in Hin as [Hin | Hin]; [discriminate |].
    by apply elem_of_nil in Hin.
  - apply elem_of_cons in Hin as [Hin | Hin]; [discriminate |].
    by apply elem_of_nil in Hin.
Qed.

(** C9, where the code departs from it.  The command word with the bot's
    name and no argument ([/broadcast@name]) has an empty text, yet line 323
    takes off the command word only and is left with [@name], so the
    operator gets no usage text: the job runs and [@name] is sent to every
    active account.  And for a command that comes without [message.text]
    (in the caption of a photo) line 323 raises: no usage text, nothing
    sent. *)
Theorem broadcast_mention_runs_job
    (E : Engine) (ADMIN_ID : Z) (lower : pystr -> pystr)
    (deliver : Z -> pystr -> option pystr) (name : pystr) (w : World) :
  Forall (λ c, is_space c = false) name ->
  contains (codes "/broadcast") (64%N :: name) = false ->
  let run := cmd_broadcast E ADMIN_ID lower deliver ADMIN_ID in
  let ids := get_all_user_ids E (users w) in
  (exists rest,
     trace (exec (run (Some (codes "/broadcast" ++ 64%N :: name))) w) =
       trace w ++
       [Db DbSelectActive; Answer (BroadcastProgress 0 (length ids))] ++
       rest /\
     deliveries rest = (λ u, (u, 64%N :: name)) <$> ids /\
     Answer BroadcastUsage ∉
       trace (exec (run (Some (codes "/broadcast" ++ 64%N :: name)))
                (mkWorld (users w) []))) /\
  run None w = (Raises, w).
Proof.
  intros Hname Habsent run ids. subst run.
  split; [| unfold cmd_broadcast; by rewrite rejected_operator].
  assert (Hrun : forall w0,
            exec (cmd_broadcast E ADMIN_ID lower deliver ADMIN_ID
                    (Some (codes "/broadcast" ++ 64%N :: name))) w0 =
            exec (broadcast_job E lower deliver (64%N :: name)) w0).
  { intros w0. unfold cmd_broadcast, exec. rewrite rejected_operator.
    rewrite broadcast_text_mention by done.
    unfold bind. by destruct (broadcast_job _ _ _ _ w0). }
  rewrite !Hrun.
  exists (loop_events lower deliver (64%N :: name) (length ids) 0 ids ++
          [EditText
             (BroadcastDone
                (broadcast_job E lower deliver (64%N :: name) w).1.1
                (broadcast_job E lower deliver (64%N :: name) w).1.2)]).
  split; [apply (broadcast_job_events E) |]. split.
  - rewrite deliveries_app, loop_events_deliveries. cbn. apply app_nil_r.
  - rewrite (broadcast_job_events E). cbn [users trace app].
    intros Hin.
    apply elem_of_cons in Hin as [Hin | Hin]; [discriminate |].
    apply elem_of_cons in Hin as [Hin | Hin]; [discriminate |].
    apply elem_of_app in Hin as [Hin | Hin].
    + by apply loop_events_no_answer in Hin.
    + apply elem_of_cons in Hin as [Hin | Hin]; [discriminate |].
      by apply elem_of_nil in Hin.
Qed.

Lemma broadcast_mention_runs_job_witness :
  exists rest,
    trace (exec (cmd_broadcast pkey_engine 42 ascii_lower (blocks [2]) 42
                   (Some (codes "/broadcast" ++
                          64%N :: codes "upscale_photo_bot")))
             (world0 3)) =
      [] ++ [Db DbSelectActive; Answer (BroadcastProgress 0 3)] ++ rest /\
    deliveries rest =
      [(1, 64%N :: codes "upscale_photo_bot");
       (2, 64%N :: codes "upscale_photo_bot");
       (3, 64%N :: codes "upscale_photo_bot")].
Proof.
  destruct (broadcast_mention_runs_job pkey_engine 42 ascii_lower (blocks [2])
              (codes "upscale_photo_bot") (world0 3))
    as ((rest & Htrace & Hrest & _) & _).
  - apply (bool_decide_unpack _). vm_compute. reflexivity.
  - reflexivity.
  - exists rest. split; [exact Htrace | exact Hrest].
Defined.
